(** * Precipitation-delta pipeline: a shallow embedding of [sync.py] and
    [asynk.py], and the properties of their specification.

    The two scripts share most functions verbatim; shared code is embedded
    once, and the places where the variants differ ([get_values] and the
    queue loop of [sync.py], [process] and the [for] loop of [asynk.py])
    are embedded separately. *)

From Stdlib Require Import ZArith Lia Bool Ascii String.
From Stdlib Require Import Strings.Byte.
From Stdlib Require Import Floats.SpecFloat.
From stdpp Require Import base option list gmap strings fin_maps.

Set Default Proof Using "Type".
Local Open Scope Z_scope.
Local Open Scope list_scope.

(** ** Byte strings *)

(** Python [bytes] are lists of [byte]. *)
Abbreviation bytes := (list byte).

#[global] Instance byte_eq_decision : EqDecision byte := Byte.byte_eq_dec.

(** A Python [str] literal of the source as [bytes]. *)
Definition b (s : string) : bytes := list_byte_of_string s.

(** The double-quote character, written by its code: byte 0x22. *)
Definition dquote : byte := x22.

Section Sequences.
Context {A : Type} `{EqDecision A}.
Implicit Types p s : list A.

(** [s.startswith(p)]. *)
Fixpoint starts_with p s : bool :=
  match p, s with
  | [], _ => true
  | _ :: _, [] => false
  | x :: p', y :: s' => if decide (x = y) then starts_with p' s' else false
  end.

(** [p in s] on byte strings: [p] occurs as a contiguous slice of [s]. *)
Fixpoint contains p s : bool :=
  starts_with p s ||
  match s with
  | [] => false
  | _ :: s' => contains p s'
  end.

(** [s.partition(p)] when the separator is found: the text before the
    first occurrence of [p] and the text after it. *)
Fixpoint cut p s : option (list A * list A) :=
  if starts_with p s then Some ([], drop (length p) s)
  else match s with
       | [] => None
       | c :: s' =>
           match cut p s' with
           | Some (a, r) => Some (c :: a, r)
           | None => None
           end
       end.

(** [s.split(p)] for a non-empty separator: cut at the first occurrence
    and go on in the rest.  Every cut removes at least one element, so
    [length s] rounds are enough ([split_fuel_enough] below). *)
Fixpoint split_fuel (n : nat) p s : list (list A) :=
  match n with
  | O => [s]
  | S n' =>
      match cut p s with
      | None => [s]
      | Some (a, r) => a :: split_fuel n' p r
      end
  end.

Definition split p s : list (list A) := split_fuel (length s) p s.


(** [sep.join(parts)]. *)
Fixpoint join (sep : list A) (parts : list (list A)) : list A :=
  match parts with
  | [] => []
  | [x] => x
  | x :: rest => x ++ sep ++ join sep rest
  end.
End Sequences.

(** ** Source catalog: [get_queue_of_sorces] *)

Definition NEWLINE : bytes := [x0a].
(** The separator of the first split: a double quote followed by [>]. *)
Definition CLOSE : bytes := [dquote; x3e].
(** The separator of the second split: [href=] followed by a double
    quote. *)
Definition HREF : bytes := b "href=" ++ [dquote].
(** [b"lat-lon"] *)
Definition MARKER : bytes := b "lat-lon".

(** [bytes.decode()] on ASCII input.  A byte of 0x80 or more is outside
    the model ([None]): Python decodes it as part of a UTF-8 sequence or
    raises [UnicodeDecodeError]. *)
Definition is_ascii (c : byte) : bool := (Byte.to_N c <? 128)%N.

Definition decode (s : bytes) : option string :=
  if forallb is_ascii s then Some (string_of_list_byte s) else None.

(** [items = line.split(CLOSE)[0].split(HREF)] *)
Definition line_items (line : bytes) : list bytes :=
  split HREF (hd [] (split CLOSE line)).

(** One round of the [for line in ...] loop: [None] is [continue] or a
    failed marker test, [Some h] is the bytes that get appended. *)
Definition line_entry (line : bytes) : option bytes :=
  let items := line_items line in
  if negb (length items =? 2)%nat then None
  else
    let h := nth 1 items [] in
    if contains MARKER h then Some h else None.

(** The loop of [get_queue_of_sorces] over the fetched content; [None]
    when a [decode] raises. *)
Definition scan_index (content : bytes) : option (list string) :=
  mapM decode (omap line_entry (split NEWLINE content)).

(** ** Numbers *)

(** Python [float] is IEEE binary64; the cells of a decoded grid and the
    [f] format of [struct] are IEEE binary32.  Both are [spec_float]
    values, operated on with the precision and exponent range of their
    format (round to nearest, ties to even). *)
Abbreviation float := spec_float.

Definition f64 (m e : Z) : float := binary_normalize 53 1024 m e false.
Definition f32 (m e : Z) : float := binary_normalize 24 128 m e false.

Definition mul64 : float -> float -> float := SFmul 53 1024.
Definition div64 : float -> float -> float := SFdiv 53 1024.
Definition sub32 : float -> float -> float := SFsub 24 128.

Definition EMPY_VALUE : float := f64 (-100500) 0.
Definition MULT : Z := 1000000.

(** A positional argument of [normalize_tuple]: a [float] attribute, or
    the [int] literal. *)
Inductive pynum :=
  | PyInt (z : Z)
  | PyFloat (x : float).

(** [int(x)] on a float: truncation toward zero; [None] when Python
    raises (infinities and NaN). *)
Definition int_of_float (x : float) : option Z :=
  match x with
  | S754_zero _ => Some 0
  | S754_finite s m e => Some (cond_Zopp s (Z.shiftl (Z.pos m) e))
  | S754_infinity _ | S754_nan => None
  end.

(** [int(item * MULT)]: the product of two [int]s is an [int]; the product
    of a [float] and an [int] is the binary64 product with the converted
    [int]. *)
Definition scale (item : pynum) : option Z :=
  match item with
  | PyInt z => Some (z * MULT)
  | PyFloat x => int_of_float (mul64 x (f64 MULT 0))
  end.

Definition normalize_tuple (args : list pynum) : option (list Z) :=
  mapM scale args.

(** ** [struct.pack] *)

(** The formats have no byte-order prefix, so [struct] uses the byte order
    of the machine. *)
Inductive byte_order := LittleEndian | BigEndian.

Definition byte_of_Z (z : Z) : byte :=
  default x00 (Byte.of_N (Z.to_N (Z.land z 255))).

(** The four bytes of a 32-bit word. *)
Definition word_bytes (bo : byte_order) (u : Z) : bytes :=
  let le := [byte_of_Z u; byte_of_Z (Z.shiftr u 8);
             byte_of_Z (Z.shiftr u 16); byte_of_Z (Z.shiftr u 24)] in
  match bo with
  | LittleEndian => le
  | BigEndian => rev le
  end.

(** Format [i]: a signed 32-bit integer in two's complement; [None] is
    [struct.error] for an argument out of range. *)
Definition pack_i (bo : byte_order) (z : Z) : option bytes :=
  if (-2147483648 <=? z) && (z <=? 2147483647)
  then Some (word_bytes bo (z mod 4294967296))
  else None.

(** The bit pattern of a binary32 value in canonical form. *)
Definition bits32 (x : float) : Z :=
  let sign (s : bool) := if s then 2147483648 else 0 in
  match x with
  | S754_zero s => sign s
  | S754_infinity s => sign s + 2139095040
  | S754_nan => 2143289344
  | S754_finite s m e =>
      if Z.pos m <? 8388608 then sign s + Z.pos m
      else sign s + Z.shiftl (e + 150) 23 + (Z.pos m - 8388608)
  end.

(** The conversion of a value to binary32 that format [f] performs. *)
Definition to_f32 (x : float) : float :=
  match x with
  | S754_finite s m e => binary_normalize 24 128 (cond_Zopp s (Z.pos m)) e false
  | _ => x
  end.

(** Format [f]: [None] is the [OverflowError] for a finite value too large
    for binary32. *)
Definition pack_f (bo : byte_order) (x : float) : option bytes :=
  match x, to_f32 x with
  | S754_finite _ _ _, S754_infinity _ => None
  | _, y => Some (word_bytes bo (bits32 y))
  end.

(** [struct.pack('i' * n, *zs)] and [struct.pack('f' * n, *xs)]. *)
Definition pack_ints (bo : byte_order) (zs : list Z) : option bytes :=
  List.concat (A:=byte) <$> mapM (pack_i bo) zs.

Definition pack_floats (bo : byte_order) (xs : list float) : option bytes :=
  List.concat (A:=byte) <$> mapM (pack_f bo) xs.

(** ** Grids and decoded fields *)

(** Rows of cells, outermost dimension first. *)
Abbreviation grid := (list (list float)).

(** What the scripts read of a [DataArray]: the cell values, the six GRIB
    attributes of the header, and the two time coordinates. *)
Record field := {
  values : grid;
  GRIB_latitudeOfFirstGridPointInDegrees : float;
  GRIB_latitudeOfLastGridPointInDegrees : float;
  GRIB_longitudeOfFirstGridPointInDegrees : float;
  GRIB_longitudeOfLastGridPointInDegrees : float;
  GRIB_iDirectionIncrementInDegrees : float;
  GRIB_jDirectionIncrementInDegrees : float;
  time : Z;
  step : Z
}.

Definition set_values (d : field) (g : grid) : field :=
  {| values := g;
     GRIB_latitudeOfFirstGridPointInDegrees := GRIB_latitudeOfFirstGridPointInDegrees d;
     GRIB_latitudeOfLastGridPointInDegrees := GRIB_latitudeOfLastGridPointInDegrees d;
     GRIB_longitudeOfFirstGridPointInDegrees := GRIB_longitudeOfFirstGridPointInDegrees d;
     GRIB_longitudeOfLastGridPointInDegrees := GRIB_longitudeOfLastGridPointInDegrees d;
     GRIB_iDirectionIncrementInDegrees := GRIB_iDirectionIncrementInDegrees d;
     GRIB_jDirectionIncrementInDegrees := GRIB_jDirectionIncrementInDegrees d;
     time := time d;
     step := step d |}.

(** The variable [tp] of a decoded file: with a [step] dimension it is a
    sequence of fields, without one a single field. *)
Inductive tp_var :=
  | WithStep (messages : list field)
  | NoStep (single : field).

Definition same_shape (g1 g2 : grid) : bool :=
  bool_decide (map length g1 = map length g2).

(** Cellwise subtraction of two arrays on the same axes; [None] when the
    shapes differ, which the model does not cover. *)
Definition grid_sub (g1 g2 : grid) : option grid :=
  if same_shape g1 g2 then Some (zip_with (zip_with sub32) g1 g2) else None.

Definition is_nan (x : float) : bool :=
  match x with
  | S754_nan => true
  | _ => false
  end.

(** [fillna(v)]: every NaN cell becomes [v] in the precision of the
    cells, every other cell is kept. *)
Definition fill_cell (v x : float) : float :=
  if is_nan x then to_f32 v else x.

Definition fillna (v : float) (g : grid) : grid :=
  map (map (fill_cell v)) g.

(** The cell in row [i] and column [j]. *)
Definition cell (g : grid) (i j : nat) : option float :=
  row ← g !! i; row !! j.

Definition no_nan (g : grid) : Prop :=
  Forall (Forall (fun x => is_nan x = false)) g.

(** [get_header]: the seven arguments go through [normalize_tuple]
    together, the literal [1] included. *)
Definition header_args (d : field) : list pynum :=
  [ PyFloat (GRIB_latitudeOfFirstGridPointInDegrees d);
    PyFloat (GRIB_latitudeOfLastGridPointInDegrees d);
    PyFloat (GRIB_longitudeOfFirstGridPointInDegrees d);
    PyFloat (GRIB_longitudeOfLastGridPointInDegrees d);
    PyFloat (GRIB_iDirectionIncrementInDegrees d);
    PyFloat (GRIB_jDirectionIncrementInDegrees d);
    PyInt 1 ].

Definition get_header (bo : byte_order) (d : field) : option bytes :=
  normalize_tuple (header_args d) ≫= pack_ints bo.

(** ** The world outside: network, files, objects *)

Definition BASE_URL : string :=
  "https://opendata.dwd.de/weather/nwp/icon-d2/grib/12/tot_prec/".
Definition CACHE_DIR : string := ".cache".
Definition MODEL : string := "icon_d2".

(** The exceptions the model raises.  All but [KeyboardInterrupt] are
    subclasses of [Exception]. *)
Inductive exn :=
  | TypeError | AttributeError | IndexError | ValueError
  | OSError | FileNotFoundError | UnicodeDecodeError
  | StructError | OverflowError | DecodeError
  | KeyboardInterrupt.

Definition is_Exception (e : exn) : bool :=
  match e with
  | KeyboardInterrupt => false
  | _ => true
  end.

(** What one HTTP GET yields: a response with its status code and body, or
    an exception of the transport. *)
Inductive response :=
  | Response (status_code : Z) (content : bytes)
  | TransportError.

(** The observable effects, in the order they happen.  [EvStart] is the
    line that [get_content] prints when it is entered. *)
Inductive event :=
  | EvStart (url : string)
  | EvGet (url : string)
  | EvSleep (seconds : Z)
  | EvOpen (path : string)
  | EvWrite (path : string) (written : nat).

(** A write that fails part-way: only the first [kept] bytes reach the
    file, then [raised] is raised in the writer. *)
Record fault := { kept : nat; raised : exn }.

(** The capabilities the scripts take from their environment.  The
    oracles [net] and [write_fault] are indexed by the number of effects
    performed so far.
    - [net]: the answer of the server to a GET;
    - [write_fault]: whether a write to a file is cut short;
    - [bunzip]: [bz2.decompress], [None] when it raises;
    - [load_dataset]: [xr.load_dataset] with the cfgrib engine, on the
      content of the file, [None] when it raises;
    - [get_time]: the directory name that [get_time] formats from the
      time coordinates with the [datetime] library;
    - [byteorder]: the byte order of the machine. *)
Record env := {
  net : nat -> string -> response;
  write_fault : nat -> option fault;
  bunzip : bytes -> option bytes;
  load_dataset : bytes -> option tp_var;
  get_time : field -> string;
  byteorder : byte_order
}.

(** The state of the run: the files on disk by path, the [DataArray]
    objects by reference, and the effects so far (latest first).
    Directories are not modelled: [mkdir] has no effect here and a file
    can be created at any path. *)
Record world := {
  files : gmap string bytes;
  heap : list field;
  trace : list event
}.

Definition clock (w : world) : nat := length (trace w).

Definition emit (ev : event) (w : world) : world :=
  {| files := files w; heap := heap w; trace := ev :: trace w |}.

Definition set_files (fs : gmap string bytes) (w : world) : world :=
  {| files := fs; heap := heap w; trace := trace w |}.

Definition set_heap (h : list field) (w : world) : world :=
  {| files := files w; heap := h; trace := trace w |}.

(** A computation returns a value or raises, and leaves a world either
    way. *)
Inductive outcome (A : Type) :=
  | Ok (a : A)
  | Raise (e : exn).
Arguments Ok {A} a.
Arguments Raise {A} e.

Definition M (A : Type) : Type := world -> outcome A * world.

Definition ret {A} (a : A) : M A := fun w => (Ok a, w).
Definition raise {A} (e : exn) : M A := fun w => (Raise e, w).
Definition bind {A B} (m : M A) (k : A -> M B) : M B :=
  fun w =>
    match m w with
    | (Ok a, w') => k a w'
    | (Raise e, w') => (Raise e, w')
    end.
Definition effect (ev : event) : M unit := fun w => (Ok tt, emit ev w).
(** A value of a partial operation, raising [e] when there is none. *)
Definition expect {A} (e : exn) (o : option A) : M A :=
  match o with
  | Some a => ret a
  | None => raise e
  end.

Notation "'let*' x ':=' m 'in' k" := (bind m (fun x => k))
  (at level 10, x name, m at level 100, k at level 200).
Notation "'let*' ' p ':=' m 'in' k" := (bind m (fun p => k))
  (at level 10, p strict pattern, m at level 100, k at level 200).
Notation "'do*' m 'in' k" := (bind m (fun _ => k))
  (at level 10, m at level 100, k at level 200).

(** *** Files *)

(** [open(path, "wb")]: the file exists and is empty from here on. *)
Definition open_wb (path : string) : M unit :=
  fun w => (Ok tt, emit (EvOpen path) (set_files (<[path := []]> (files w)) w)).

(** [f.write(data)] on a file opened at [path]: appends, unless the
    environment cuts the write short. *)
Definition write (E : env) (path : string) (data : bytes) : M unit :=
  fun w =>
    let old := default [] (files w !! path) in
    match write_fault E (clock w) with
    | Some ft =>
        let part := take (kept ft) data in
        (Raise (raised ft),
         emit (EvWrite path (length part))
              (set_files (<[path := old ++ part]> (files w)) w))
    | None =>
        (Ok tt,
         emit (EvWrite path (length data))
              (set_files (<[path := old ++ data]> (files w)) w))
    end.

(** [Path(path).exists()] *)
Definition exists_ (path : string) (w : world) : bool :=
  bool_decide (is_Some (files w !! path)).

(** *** Fetcher: [get_content] and [get_content_async] *)

(** The [while content is None and attempts < 10] loop, by the number of
    attempts left.  Every exception of the body is caught; the handler
    prints and sleeps. *)
Fixpoint attempt (E : env) (path : string) (left : nat) (w : world)
  : option bytes * world :=
  match left with
  | O => (None, w)
  | S left' =>
      let w1 := emit (EvGet path) w in
      match net E (clock w) path with
      | Response 200 content => (Some content, w1)
      | _ => attempt E path left' (emit (EvSleep 2) w1)
      end
  end.

Definition get_content (E : env) (path : string) : M (option bytes) :=
  fun w =>
    let (content, w') := attempt E path 10 (emit (EvStart path) w) in
    (Ok content, w').

(** [get_content_async] of [asynk.py] is the same loop around an aiohttp
    request; its pause is the same blocking [sleep(2)]. *)
Definition get_content_async : env -> string -> M (option bytes) := get_content.

(** *** Cache store *)

(** [s[:-4]] *)
Definition drop_last4 (s : string) : string :=
  substring 0 (String.length s - 4) s.

Definition get_filename (bz2filename : string) : string :=
  CACHE_DIR +:+ "/" +:+ drop_last4 bz2filename.

(** [bz2.decompress(content)]: [TypeError] on [None], [OSError] on data
    that is not a bz2 stream. *)
Definition decompress (E : env) (content : option bytes) : M bytes :=
  match content with
  | None => raise TypeError
  | Some c => expect OSError (bunzip E c)
  end.

(** [download_dataset] of [asynk.py]; the same statements open
    [get_dataset] of [sync.py]. *)
Definition download_dataset (E : env) (bz2filename : string) : M unit :=
  let filename := get_filename bz2filename in
  fun w =>
    if negb (exists_ filename w) then
      (let* content := get_content_async E (BASE_URL +:+ bz2filename) in
       let* data := decompress E content in
       do* open_wb filename in
       write E filename data) w
    else (Ok tt, w).

(** *** Grid loader *)

(** [xr.load_dataset(filename, engine="cfgrib")] and the choice of the
    first message when there is a [step] dimension. *)
Definition load_field (E : env) (filename : string) : M field :=
  fun w =>
    (let* data := expect FileNotFoundError (files w !! filename) in
     let* dataset := expect DecodeError (load_dataset E data) in
     match dataset with
     | WithStep messages => expect IndexError (messages !! 0%nat)
     | NoStep single => ret single
     end) w.

(** A new object on the heap. *)
Definition alloc (d : field) : M nat :=
  fun w => (Ok (length (heap w)), set_heap (heap w ++ [d]) w).

Definition deref (r : nat) : M field :=
  fun w => expect ValueError (heap w !! r) w.

(** [get_dataset] of [asynk.py]: the file is expected in the cache. *)
Definition get_dataset_async (E : env) (bz2filename : string) : M field :=
  load_field E (get_filename bz2filename).

(** [get_dataset] of [sync.py]: cache, then load; the result is an object
    that the caller goes on to update. *)
Definition get_dataset (E : env) (bz2filename : string) : M nat :=
  do* download_dataset E bz2filename in
  let* d := load_field E (get_filename bz2filename) in
  alloc d.

(** ** Source catalog, with its fetch *)

(** [content.split] on [None] is an [AttributeError]. *)
Definition get_queue_of_sorces (E : env) : M (list string) :=
  let* content := get_content E BASE_URL in
  match content with
  | None => raise AttributeError
  | Some c => expect UnicodeDecodeError (scan_index c)
  end.

(** ** Delta engine of [sync.py]: [get_values] *)

(** [a -= p] on [DataArray] objects: the object [a] itself is updated,
    whatever names are bound to it. *)
Definition isub (a p : nat) : M unit :=
  let* d := deref a in
  let* q := deref p in
  let* g := expect ValueError (grid_sub (values d) (values q)) in
  fun w => (Ok tt, set_heap (<[a := set_values d g]> (heap w)) w).

(** [a.fillna(v)]: a new object. *)
Definition fillna_obj (a : nat) (v : float) : M nat :=
  let* d := deref a in
  alloc (set_values d (fillna v (values d))).

(** [result = dataset] binds a second name to the same object, so the
    in-place subtraction is seen through [dataset] too. *)
Definition get_values (dataset : nat) (prev_values : option nat) : M (nat * nat) :=
  let result := dataset in
  do* match prev_values with
      | Some p => isub result p
      | None => ret tt
      end in
  let* filled := fillna_obj result EMPY_VALUE in
  ret (filled, dataset).

(** ** Grid writer *)

Definition output_dir (E : env) (d : field) : string :=
  "./" +:+ MODEL +:+ "/" +:+ get_time E d.

Definition output_file (path : string) : string := path +:+ "/PRATE.wgf4".

(** The [for line in values] loop of [sync.py]: one write per row. *)
Fixpoint write_rows (E : env) (file : string) (rows : grid) : M unit :=
  match rows with
  | [] => ret tt
  | line :: rest =>
      let* packed := expect OverflowError (pack_floats (byteorder E) line) in
      do* write E file packed in
      write_rows E file rest
  end.

(** [write_data] of [sync.py]: the file is opened first and written piece
    by piece. *)
Definition write_data (E : env) (path : string) (header : bytes) (vals : grid)
  : M unit :=
  let file := output_file path in
  do* open_wb file in
  do* write E file header in
  let* sentinel := expect OverflowError (pack_f (byteorder E) EMPY_VALUE) in
  do* write E file sentinel in
  write_rows E file vals.

(** The [value += ...] loop of [asynk.py]. *)
Fixpoint pack_rows (bo : byte_order) (rows : grid) : option bytes :=
  match rows with
  | [] => Some []
  | line :: rest =>
      packed ← pack_floats bo line;
      more ← pack_rows bo rest;
      Some (packed ++ more)
  end.

(** [write_data] of [asynk.py]: the content is assembled in memory and
    written at once. *)
Definition write_data_async (E : env) (path : string) (header : bytes)
    (vals : grid) : M unit :=
  let* sentinel := expect OverflowError (pack_f (byteorder E) EMPY_VALUE) in
  let* payload := expect OverflowError (pack_rows (byteorder E) vals) in
  let file := output_file path in
  do* open_wb file in
  write E file (header ++ sentinel ++ payload).

(** ** Orchestration of [sync.py] *)

(** The variables of [main] that the loop updates. *)
Record loop_state := {
  filenames : list string;
  prev_values : nat
}.

(** The body of the [try] for the entry [current].  The assignment to
    [prev_values] takes place before [write_data] runs, so it survives an
    exception of [write_data]; [popleft] is the last statement. *)
Definition try_body (E : env) (current : string) (st : loop_state)
  : world -> outcome unit * loop_state * world :=
  fun w =>
    match (let* dataset := get_dataset E current in
           let* d := deref dataset in
           let* header := expect StructError (get_header (byteorder E) d) in
           let path := output_dir E d in
           let* '(result, prev') := get_values dataset (Some (prev_values st)) in
           ret (header, path, result, prev')) w with
    | (Raise e, w1) => (Raise e, st, w1)
    | (Ok (header, path, result, prev'), w1) =>
        let st1 := {| filenames := filenames st; prev_values := prev' |} in
        match (let* r := deref result in
               write_data E path header (values r)) w1 with
        | (Raise e, w2) => (Raise e, st1, w2)
        | (Ok _, w2) =>
            (Ok tt, {| filenames := tail (filenames st); prev_values := prev' |}, w2)
        end
    end.

Inductive progress :=
  | Continue (st : loop_state)
  | Finished
  | Aborted (e : exn).

(** One round of [while filenames].  [except Exception] catches what
    derives from [Exception], prints it, and the loop goes on. *)
Definition iteration (E : env) (st : loop_state) (w : world) : progress * world :=
  match filenames st with
  | [] => (Finished, w)
  | current :: _ =>
      match try_body E current st w with
      | (Ok _, st', w') => (Continue st', w')
      | (Raise e, st', w') =>
          if is_Exception e then (Continue st', w') else (Aborted e, w')
      end
  end.

(** The loop, for at most [n] rounds; [Continue] after [n] rounds means
    that it is still running. *)
Fixpoint rounds (E : env) (n : nat) (st : loop_state) (w : world) : progress * world :=
  match n with
  | O => (Continue st, w)
  | S n' =>
      match iteration E st w with
      | (Continue st', w') => rounds E n' st' w'
      | r => r
      end
  end.

(** [main] up to the loop: the catalog, and the first entry as the
    baseline.  [filenames[0]] on an empty queue is an [IndexError]. *)
Definition main_init (E : env) : M loop_state :=
  let* names := get_queue_of_sorces E in
  let* first := expect IndexError (head names) in
  let* d0 := get_dataset E first in
  let* '(prev, _) := get_values d0 None in
  ret {| filenames := tail names; prev_values := prev |}.

Definition main (E : env) (n : nat) (w : world) : progress * world :=
  match main_init E w with
  | (Ok st, w') => rounds E n st w'
  | (Raise e, w') => (Aborted e, w')
  end.

(** ** Orchestration of [asynk.py] *)

(** [l[i]] with Python's negative indices. *)
Definition py_index {A} (l : list A) (i : Z) : option A :=
  if i <? 0 then
    if Z.of_nat (length l) + i <? 0 then None
    else l !! Z.to_nat (Z.of_nat (length l) + i)
  else l !! Z.to_nat i.

Definition process (E : env) (names : list string) (index : Z) : M unit :=
  let* current := expect IndexError (py_index names index) in
  let* previous := expect IndexError (py_index names (index - 1)) in
  let* prev_dataset := get_dataset_async E previous in
  let* dataset := get_dataset_async E current in
  let* header := expect StructError (get_header (byteorder E) dataset) in
  let path := output_dir E dataset in
  let* delta := expect ValueError (grid_sub (values dataset) (values prev_dataset)) in
  write_data_async E path header (fillna EMPY_VALUE delta).

(** A [for] loop whose body may raise: the exception leaves the loop. *)
Fixpoint for_each {A} (body : A -> M unit) (l : list A) : M unit :=
  match l with
  | [] => ret tt
  | x :: rest => do* body x in for_each body rest
  end.

(** [download_datasets]: the tasks are run here one after the other in
    the order of their creation; their interleaving at the points where
    they wait is not modelled. *)
Definition download_datasets (E : env) (names : list string) : M unit :=
  for_each (download_dataset E) names.

(** [range(1, n)] *)
Definition range1 (n : nat) : list Z := Z.of_nat <$> seq 1 (n - 1).

Definition main_async (E : env) : M unit :=
  let* names := get_queue_of_sorces E in
  do* download_datasets E names in
  for_each (process E names) (range1 (length names)).

(** ** The catalog as the specification words it *)




(** Index lines of the two shapes that a directory listing has: a line
    without anchor, and a line with one anchor. *)
Inductive line_shape :=
  | Plain (text : bytes)
  | Anchor (pre href post : bytes).

Definition render_line (l : line_shape) : bytes :=
  match l with
  | Plain text => text
  | Anchor pre href post => pre ++ HREF ++ href ++ CLOSE ++ post
  end.

Definition render (ls : list line_shape) : bytes :=
  join NEWLINE (render_line <$> ls).



(** ** The effects of a fetch, as the specification words them *)

(** The body of a response that counts as a success. *)
Definition succeeded (r : response) : option bytes :=
  match r with
  | Response 200 content => Some content
  | _ => None
  end.

(** [k] failed attempts, latest first: each is a GET followed by a pause
    of two seconds. *)
Fixpoint retries (path : string) (k : nat) : list event :=
  match k with
  | O => []
  | S k' => EvSleep 2 :: EvGet path :: retries path k'
  end.

(** All the effects of a fetch with [k] failed attempts, followed or not
    by a successful one. *)
Definition fetch_events (path : string) (k : nat) (hit : bool) : list event :=
  (if hit then [EvGet path] else []) ++ retries path k ++ [EvStart path].

Definition add_events (evs : list event) (w : world) : world :=
  {| files := files w; heap := heap w; trace := evs ++ trace w |}.

Definition is_get (ev : event) : bool :=
  match ev with
  | EvGet _ => true
  | _ => false
  end.


(** The number of GETs and the number of fetches (calls of
    [get_content]) of a run. *)
Definition gets (w : world) : nat := length (List.filter is_get (trace w)).

(** ** Concrete inputs *)

(** A listing of three entries of the wanted projection and one of
    another, with a header line and an empty last line. *)
Definition demo_lines : list line_shape :=
  [ Plain (b "<html><body><pre>");
    Anchor (b "<a ") (b "t0_lat-lon.bz2") (b "t0</a> 12:00 1M");
    Anchor (b "<a ") (b "t0_icosahedral.bz2") (b "t0</a> 12:00 1M");
    Anchor (b "<a ") (b "t1_lat-lon.bz2") (b "t1</a> 12:05 1M");
    Anchor (b "<a ") (b "t2_lat-lon.bz2") (b "t2</a> 12:10 1M");
    Plain [] ].

Definition demo_index : bytes := render demo_lines.


(** A field of one cell [x] with the boundary coordinates 47.5, 55.5,
    5.0, 17.0 and the increments 0.02 (the binary64 nearest to 2/100). *)
Definition demo_field (t : Z) (cells : grid) : field :=
  {| values := cells;
     GRIB_latitudeOfFirstGridPointInDegrees := f64 95 (-1);
     GRIB_latitudeOfLastGridPointInDegrees := f64 111 (-1);
     GRIB_longitudeOfFirstGridPointInDegrees := f64 5 0;
     GRIB_longitudeOfLastGridPointInDegrees := f64 17 0;
     GRIB_iDirectionIncrementInDegrees := div64 (f64 2 0) (f64 100 0);
     GRIB_jDirectionIncrementInDegrees := div64 (f64 2 0) (f64 100 0);
     time := t;
     step := 0 |}.

(** A server that publishes [demo_index] and three files whose decoded
    grids hold 1.0, 3.0 and 6.0; decompression is the identity, and no
    write fails. *)
Definition demo_env : env :=
  {| net := fun _ url =>
       if String.eqb url BASE_URL then Response 200 demo_index
       else if String.eqb url (BASE_URL +:+ "t0_lat-lon.bz2") then Response 200 [x00]
       else if String.eqb url (BASE_URL +:+ "t1_lat-lon.bz2") then Response 200 [x01]
       else if String.eqb url (BASE_URL +:+ "t2_lat-lon.bz2") then Response 200 [x02]
       else Response 404 [];
     write_fault := fun _ => None;
     bunzip := fun c => Some c;
     load_dataset := fun data =>
       match data with
       | [x00] => Some (WithStep [demo_field 0 [[f32 1 0]]])
       | [x01] => Some (WithStep [demo_field 1 [[f32 3 0]]])
       | [x02] => Some (NoStep (demo_field 2 [[f32 6 0]]))
       | _ => None
       end;
     get_time := fun d =>
       match time d with
       | 0 => "t0"
       | 1 => "t1"
       | _ => "t2"
       end;
     byteorder := LittleEndian |}.

Definition empty_world : world := {| files := ∅; heap := []; trace := [] |}.

(** A server that answers every request with status 503. *)
Definition dead_env : env :=
  {| net := fun _ _ => Response 503 [];
     write_fault := fun _ => None;
     bunzip := fun c => Some c;
     load_dataset := fun _ => None;
     get_time := fun _ => "t";
     byteorder := LittleEndian |}.

(** A server that answers every request with the same body; every write
    is cut after four bytes by an interrupt. *)
Definition crash_env : env :=
  {| net := fun _ _ => Response 200 (b "compressed grid");
     write_fault := fun _ => Some {| kept := 4; raised := KeyboardInterrupt |};
     bunzip := fun c => Some c;
     load_dataset := fun _ => None;
     get_time := fun _ => "t";
     byteorder := LittleEndian |}.

(** A world with one object: a grid whose first cell is missing. *)
Definition nan_world : world :=
  {| files := ∅; heap := [demo_field 0 [[S754_nan; f32 1 0]]]; trace := [] |}.

(** The server of [demo_env], but the file of the second entry cannot be
    decoded. *)
Definition undecodable_env : env :=
  {| net := net demo_env;
     write_fault := write_fault demo_env;
     bunzip := bunzip demo_env;
     load_dataset := fun data =>
       match data with
       | [x01] => None
       | _ => load_dataset demo_env data
       end;
     get_time := get_time demo_env;
     byteorder := byteorder demo_env |}.

(** A server whose index is an empty document. *)
Definition empty_index_env : env :=
  {| net := fun _ _ => Response 200 [];
     write_fault := fun _ => None;
     bunzip := fun c => Some c;
     load_dataset := fun _ => None;
     get_time := fun _ => "t";
     byteorder := LittleEndian |}.

(** A server whose index lists a single entry. *)
Definition single_entry_env : env :=
  {| net := fun _ url =>
       if String.eqb url BASE_URL
       then Response 200 (render [Anchor (b "<a ") (b "t0_lat-lon.bz2") (b "t0</a>")])
       else net demo_env 0 url;
     write_fault := write_fault demo_env;
     bunzip := bunzip demo_env;
     load_dataset := load_dataset demo_env;
     get_time := get_time demo_env;
     byteorder := byteorder demo_env |}.

(** * Properties *)

(** ** Byte strings *)

Section SequenceFacts.
Context {A : Type} `{EqDecision A}.
Implicit Types p s : list A.

Lemma starts_with_spec p s : starts_with p s = true ↔ p `prefix_of` s.
Proof.
  revert s. induction p as [|x p IH]; intros s; simpl.
  - split; [intros _; apply prefix_nil | done].
  - destruct s as [|y s].
    + split; [done | intros Hp; by apply prefix_nil_not in Hp].
    + case_decide as Hxy; [subst y|].
      * rewrite IH. split; [apply prefix_cons | apply prefix_cons_inv_2].
      * split; [done | intros Hp; by apply prefix_cons_inv_1 in Hp].
Qed.

Lemma starts_with_app p r : starts_with p (p ++ r) = true.
Proof. apply starts_with_spec. by exists r. Qed.














End SequenceFacts.

(** ** Source catalog *)

Lemma HREF_nonempty : HREF ≠ [].
Proof. done. Qed.

Lemma CLOSE_nonempty : CLOSE ≠ [].
Proof. done. Qed.










(** ** Cache paths *)

Lemma length_string_app (s t : string) :
  String.length (s +:+ t) = (String.length s + String.length t)%nat.
Proof. induction s as [|c s IH]; simpl; [done | by rewrite IH]. Qed.

Lemma substring_app_l (s t : string) :
  substring 0 (String.length s) (s +:+ t) = s.
Proof.
  induction s as [|c s IH]; simpl.
  - by destruct t.
  - by rewrite IH.
Qed.

Lemma drop_last4_app (s suffix : string) :
  String.length suffix = 4%nat → drop_last4 (s +:+ suffix) = s.
Proof.
  intros Hlen. unfold drop_last4. rewrite length_string_app, Hlen.
  replace (String.length s + 4 - 4)%nat with (String.length s) by lia.
  apply substring_app_l.
Qed.

Lemma get_filename_inj_stem (s1 s2 : string) :
  CACHE_DIR +:+ "/" +:+ s1 = CACHE_DIR +:+ "/" +:+ s2 → s1 = s2.
Proof. intros Heq. by injection Heq. Qed.

(** C9, as amended.  Two distinct entry names that both end in the
    compression suffix [.bz2] have distinct cache paths. *)
Theorem get_filename_injective_on_bz2 (s1 s2 : string) :
  s1 +:+ ".bz2" ≠ s2 +:+ ".bz2" →
  get_filename (s1 +:+ ".bz2") ≠ get_filename (s2 +:+ ".bz2").
Proof.
  intros Hne Heq. apply Hne. unfold get_filename in Heq.
  rewrite !drop_last4_app in Heq by done.
  by rewrite (get_filename_inj_stem _ _ Heq).
Qed.

Lemma get_filename_injective_on_bz2_witness :
  "t0_lat-lon" +:+ ".bz2" ≠ "t1_lat-lon" +:+ ".bz2" ∧
  get_filename "t0_lat-lon.bz2" ≠ get_filename "t1_lat-lon.bz2".
Proof.
  split; [done|].
  apply (get_filename_injective_on_bz2 "t0_lat-lon" "t1_lat-lon"). done.
Defined.

(** C9, as stated, fails: the last four characters are dropped whatever
    they are, so two names that differ only there share a cache path. *)
Lemma get_filename_collision :
  "t0_lat-lon.bz2" ≠ "t0_lat-lon.md5" ∧
  get_filename "t0_lat-lon.bz2" = get_filename "t0_lat-lon.md5".
Proof. split; [done | reflexivity]. Qed.

(** ** Fetcher *)

Lemma add_events_nil w : add_events [] w = w.
Proof. by destruct w. Qed.

Lemma add_events_emit ev evs w :
  emit ev (add_events evs w) = add_events (ev :: evs) w.
Proof. done. Qed.

Lemma clock_add_events evs w :
  clock (add_events evs w) = (length evs + clock w)%nat.
Proof. unfold clock. simpl. by rewrite length_app. Qed.

Lemma length_retries path k : length (retries path k) = (2 * k)%nat.
Proof. induction k as [|k IH]; simpl; [done | rewrite IH; lia]. Qed.

Lemma attempt_unfold (E : env) (path : string) (left : nat) (w : world) :
  attempt E path (S left) w =
    match succeeded (net E (clock w) path) with
    | Some c => (Some c, emit (EvGet path) w)
    | None => attempt E path left (emit (EvSleep 2) (emit (EvGet path) w))
    end.
Proof.
  cbn [attempt]. destruct (net E (clock w) path) as [status body|]; [|done].
  destruct status as [|status|]; [done| |done].
  do 8 (destruct status as [status|status|]; try done).
Qed.

(** The retry loop: [k] failed attempts, then either a success or no
    attempt left. *)
Lemma attempt_spec (E : env) (path : string) (left : nat) (w0 : world) (done_ : nat) :
  let w := add_events (retries path done_ ++ [EvStart path]) w0 in
  ∃ k, (done_ ≤ k ≤ done_ + left)%nat ∧
    (∀ j, (done_ ≤ j < k)%nat →
          succeeded (net E (S (clock w0) + 2 * j) path) = None) ∧
    (((k < done_ + left)%nat ∧
       ∃ c, succeeded (net E (S (clock w0) + 2 * k) path) = Some c ∧
            attempt E path left w =
              (Some c, add_events (fetch_events path k true) w0))
     ∨ k = (done_ + left)%nat ∧
       attempt E path left w =
         (None, add_events (fetch_events path k false) w0)).
Proof.
  revert done_. induction left as [|left IH]; intros done_ w.
  - exists done_. split; [lia|]. split; [intros j Hj; lia|].
    right. split; [lia|]. done.
  - assert (clock w = S (clock w0) + 2 * done_)%nat as Hclock.
    { unfold w. rewrite clock_add_events, length_app, length_retries. simpl. lia. }
    rewrite attempt_unfold, Hclock.
    destruct (succeeded (net E (S (clock w0) + 2 * done_) path)) as [c|] eqn:Hs.
    + exists done_. split; [lia|]. split; [intros j Hj; lia|].
      left. split; [lia|]. by exists c.
    + destruct (IH (S done_)) as (k & Hk & Hfail & Hres).
      exists k. split; [lia|]. split.
      { intros j Hj. destruct (decide (j = done_)) as [->|]; [done|].
        apply Hfail. lia. }
      change (emit (EvSleep 2) (emit (EvGet path) w))
        with (add_events (retries path (S done_) ++ [EvStart path]) w0).
      destruct Hres as [(Hlt & c & Hc & Ha) | (-> & Ha)].
      * left. split; [lia|]. by exists c.
      * right. split; [lia|]. by rewrite Ha.
Qed.

(** C5, as amended.  [get_content] issues one GET per attempt and at
    most ten of them; every attempt that does not answer with status 200
    is followed by a pause of two seconds; the first answer with status
    200 ends the loop with its body; after ten failed attempts the
    function returns [None], and it never raises. *)
Theorem get_content_bounded_retry (E : env) (path : string) (w : world) :
  ∃ k, (k ≤ 10)%nat ∧
    (∀ j, (j < k)%nat → succeeded (net E (S (clock w) + 2 * j) path) = None) ∧
    (((k < 10)%nat ∧
       ∃ c, succeeded (net E (S (clock w) + 2 * k) path) = Some c ∧
            get_content E path w =
              (Ok (Some c), add_events (fetch_events path k true) w))
     ∨ k = 10%nat ∧
       get_content E path w =
         (Ok None, add_events (fetch_events path 10 false) w)).
Proof.
  destruct (attempt_spec E path 10 w 0) as (k & Hk & Hfail & Hres).
  exists k. split; [lia|]. split; [intros j Hj; apply Hfail; lia|].
  unfold get_content.
  change (emit (EvStart path) w)
    with (add_events (retries path 0 ++ [EvStart path]) w).
  destruct Hres as [(Hlt & c & Hc & Ha) | (-> & Ha)].
  - left. split; [lia|]. exists c. split; [done|]. by rewrite Ha.
  - right. split; [done|]. by rewrite Ha.
Qed.

(** C5, as stated, fails in its last clause: when all ten attempts have
    failed, the fetch returns [None] and raises nothing. *)
Lemma get_content_exhausted_returns_none :
  fst (get_content dead_env BASE_URL empty_world) = Ok None ∧
  gets (snd (get_content dead_env BASE_URL empty_world)) = 10%nat ∧
  ∀ e, fst (get_content dead_env BASE_URL empty_world) ≠ Raise e.
Proof. split; [|split]; [by vm_compute | by vm_compute | intros e; by vm_compute]. Qed.

(** ** Cache store *)

Lemma get_content_inv (E : env) (path : string) (w : world) :
  ∃ c k hit, get_content E path w = (Ok c, add_events (fetch_events path k hit) w).
Proof.
  destruct (get_content_bounded_retry E path w)
    as (k & _ & _ & [(_ & c & _ & Hg) | (_ & Hg)]); rewrite Hg; eauto.
Qed.



Lemma exists_true path w : exists_ path w = true ↔ is_Some (files w !! path).
Proof. unfold exists_. by rewrite bool_decide_eq_true. Qed.

Lemma exists_false path w : exists_ path w = false ↔ files w !! path = None.
Proof.
  unfold exists_. rewrite bool_decide_eq_false. by rewrite eq_None_not_Some.
Qed.

(** A cache hit: nothing happens. *)
Lemma download_dataset_hit (E : env) (name : string) (w : world) :
  is_Some (files w !! get_filename name) →
  download_dataset E name w = (Ok tt, w).
Proof.
  intros Hex. unfold download_dataset.
  by rewrite (proj2 (exists_true _ _) Hex).
Qed.

(** On a hit, [get_dataset] of [sync.py] only loads. *)
Lemma get_dataset_hit (E : env) (name : string) (w : world) :
  is_Some (files w !! get_filename name) →
  get_dataset E name w =
    (let* d := load_field E (get_filename name) in alloc d) w.
Proof.
  intros Hex. unfold get_dataset, bind at 1.
  by rewrite download_dataset_hit.
Qed.

(** A cache miss, step by step. *)
Lemma download_dataset_miss (E : env) (name : string) (w : world) :
  files w !! get_filename name = None →
  ∃ c k hit,
    let w1 := add_events (fetch_events (BASE_URL +:+ name) k hit) w in
    get_content E (BASE_URL +:+ name) w = (Ok c, w1) ∧
    download_dataset E name w =
      (let* data := decompress E c in
       do* open_wb (get_filename name) in
       write E (get_filename name) data) w1.
Proof.
  intros Hmiss.
  destruct (get_content_inv E (BASE_URL +:+ name) w) as (c & k & hit & Hg).
  exists c, k, hit. split; [done|].
  unfold download_dataset. rewrite (proj2 (exists_false _ _) Hmiss).
  cbn [negb]. unfold bind at 1. unfold get_content_async. by rewrite Hg.
Qed.

Lemma load_field_trace (E : env) (path : string) (w : world) :
  snd (load_field E path w) = w.
Proof.
  unfold load_field, bind, expect, ret, raise.
  destruct (files w !! path) as [data|]; [|done].
  destruct (load_dataset E data) as [[messages|single]|]; [|done|done].
  by destruct (messages !! 0%nat).
Qed.



Lemma take_lt_ne {A} (l : list A) (k : nat) : (k < length l)%nat → take k l ≠ l.
Proof.
  intros Hk Heq. apply (f_equal length) in Heq. rewrite length_take in Heq. lia.
Qed.

(** C10.  The cache write is not atomic.  When the fetch and the
    decompression succeed and the write is cut short (by an error or an
    interrupt) after fewer bytes than the data has, the call raises and
    leaves the partial file at the cache path; from then on every call
    for that entry, in whatever environment, takes the existing file for
    a hit: it fetches nothing, leaves the partial file as it is, and
    [get_dataset] goes on to load it. *)
Theorem partial_cache_file_is_a_hit
    (E : env) (name : string) (w wf : world) (content data : bytes) (ft : fault) :
  files w !! get_filename name = None →
  get_content_async E (BASE_URL +:+ name) w = (Ok (Some content), wf) →
  bunzip E content = Some data →
  write_fault E (S (clock wf)) = Some ft →
  (kept ft < length data)%nat →
  ∃ w1, download_dataset E name w = (Raise (raised ft), w1) ∧
    files w1 !! get_filename name = Some (take (kept ft) data) ∧
    take (kept ft) data ≠ data ∧
    ∀ (E2 : env) (w2 : world),
      files w2 !! get_filename name = Some (take (kept ft) data) →
      download_dataset E2 name w2 = (Ok tt, w2) ∧
      get_dataset E2 name w2 =
        (let* dataset := expect DecodeError (load_dataset E2 (take (kept ft) data)) in
         let* d := match dataset with
                   | WithStep messages => expect IndexError (messages !! 0%nat)
                   | NoStep single => ret single
                   end in
         alloc d) w2.
Proof.
  intros Hmiss Hget Hzip Hfault Hcut.
  eexists. split; [|split; [|split]].
  - unfold download_dataset. rewrite (proj2 (exists_false _ _) Hmiss).
    cbn [negb]. unfold bind at 1. rewrite Hget.
    unfold bind, decompress, expect, ret, open_wb. rewrite Hzip.
    unfold write.
    change (clock (emit (EvOpen (get_filename name))
                     (set_files (<[get_filename name:=[]]> (files wf)) wf)))
      with (S (clock wf)).
    rewrite Hfault. reflexivity.
  - cbn [files set_files emit]. rewrite lookup_insert_eq.
    by rewrite lookup_insert_eq.
  - by apply take_lt_ne.
  - intros E2 w2 Hfile. split.
    + apply download_dataset_hit. by rewrite Hfile.
    + rewrite get_dataset_hit by (by rewrite Hfile).
      unfold load_field, bind. rewrite Hfile. cbn [expect ret].
      destruct (load_dataset E2 (take (kept ft) data)); done.
Qed.

Lemma partial_cache_file_is_a_hit_witness :
  let w1 := snd (download_dataset crash_env "t0_lat-lon.bz2" empty_world) in
  download_dataset crash_env "t0_lat-lon.bz2" empty_world = (Raise KeyboardInterrupt, w1) ∧
  files w1 !! ".cache/t0_lat-lon" = Some (b "comp") ∧
  download_dataset demo_env "t0_lat-lon.bz2" w1 = (Ok tt, w1).
Proof.
  intros w1.
  destruct (partial_cache_file_is_a_hit crash_env "t0_lat-lon.bz2" empty_world
              (snd (get_content_async crash_env (BASE_URL +:+ "t0_lat-lon.bz2") empty_world))
              (b "compressed grid") (b "compressed grid")
              {| kept := 4; raised := KeyboardInterrupt |}
              eq_refl eq_refl eq_refl eq_refl ltac:(vm_compute; lia))
    as (w1' & Hcall & Hfile & _ & Hlater).
  assert (w1' = w1) as -> by (unfold w1; by rewrite Hcall).
  split; [exact Hcall|]. split; [exact Hfile|].
  exact (proj1 (Hlater demo_env w1 Hfile)).
Defined.

(** ** Header *)

Lemma length_word_bytes bo u : length (word_bytes bo u) = 4%nat.
Proof. by destruct bo. Qed.

Lemma pack_i_Some bo z bs :
  pack_i bo z = Some bs →
  -2147483648 <= z <= 2147483647 ∧ bs = word_bytes bo (z mod 4294967296).
Proof.
  unfold pack_i. destruct (_ && _) eqn:Hr; [|done]. intros [= <-].
  apply andb_true_iff in Hr as [H1%Z.leb_le H2%Z.leb_le]. done.
Qed.

Lemma mapM_pack_i_length bo zs bss :
  mapM (pack_i bo) zs = Some bss →
  length (List.concat bss) = (4 * length zs)%nat ∧
  Forall (fun z => -2147483648 <= z <= 2147483647) zs.
Proof.
  revert bss. induction zs as [|z zs IH]; intros bss Hm.
  - injection Hm as <-. by split.
  - cbn in Hm. destruct (pack_i bo z) as [bs|] eqn:Hz; [|done].
    destruct (mapM (pack_i bo) zs) as [bss'|]; [|done].
    injection Hm as <-. apply pack_i_Some in Hz as [Hr ->].
    destruct (IH _ eq_refl) as [Hl Hf]. split; [|by constructor].
    cbn [List.concat]. rewrite length_app, length_word_bytes, Hl. simpl. lia.
Qed.

Lemma pack_ints_length bo zs h :
  pack_ints bo zs = Some h →
  length h = (4 * length zs)%nat ∧
  Forall (fun z => -2147483648 <= z <= 2147483647) zs.
Proof.
  unfold pack_ints. destruct (mapM (pack_i bo) zs) as [bss|] eqn:Hm; [|done].
  intros [= <-]. by apply (mapM_pack_i_length bo).
Qed.

(** [int] truncates toward zero: the quotient [÷] of the integer
    numerator by the power of two in the denominator. *)
Lemma int_of_float_truncates (s : bool) (m : positive) (e : Z) :
  int_of_float (S754_finite s m e) =
    Some (if 0 <=? e then cond_Zopp s (Z.pos m * 2 ^ e)
          else cond_Zopp s (Z.pos m) ÷ 2 ^ (- e)).
Proof.
  unfold int_of_float. f_equal. destruct (0 <=? e) eqn:He.
  - by rewrite Z.shiftl_mul_pow2 by lia.
  - rewrite Z.shiftl_div_pow2 by lia.
    assert (0 < 2 ^ (- e)) by (apply Z.pow_pos_nonneg; lia).
    destruct s; cbn [cond_Zopp].
    + change (Z.neg m) with (- Z.pos m). rewrite Z.quot_opp_l by lia.
      f_equal. symmetry. apply Z.quot_div_nonneg; lia.
    + symmetry. apply Z.quot_div_nonneg; lia.
Qed.

(** The binary64 nearest to 47.1234567 times 1e6 is 47123456.7 up to
    rounding; its integer is 47123456, the nearest integer is
    47123457. *)
Example scale_truncates :
  scale (PyFloat (div64 (f64 471234567 0) (f64 10000000 0))) = Some 47123456 ∧
  mul64 (div64 (f64 471234567 0) (f64 10000000 0)) (f64 MULT 0)
    = S754_finite false 6324803293780377 (-27) ∧
  2 * 47123456 * 2 ^ 27 + 2 ^ 27 < 2 * 6324803293780377.
Proof. by vm_compute. Qed.

(** C3, as amended.  [get_header] packs, in the fixed field order, the
    six attributes, each multiplied by 1e6 in binary64 and truncated
    toward zero by [int], followed by the seventh argument [1] scaled
    like the others, that is 1000000: seven signed 32-bit integers, 28
    bytes, when each value fits.  For 47.5, 55.5, 5.0, 17.0, 0.02, 0.02
    the packed integers are 47500000, 55500000, 5000000, 17000000,
    20000, 20000, 1000000. *)
Theorem get_header_layout (bo : byte_order) (d : field) (h : bytes) :
  get_header bo d = Some h →
  (∃ zs,
     mapM (fun x => int_of_float (mul64 x (f64 MULT 0)))
       [ GRIB_latitudeOfFirstGridPointInDegrees d;
         GRIB_latitudeOfLastGridPointInDegrees d;
         GRIB_longitudeOfFirstGridPointInDegrees d;
         GRIB_longitudeOfLastGridPointInDegrees d;
         GRIB_iDirectionIncrementInDegrees d;
         GRIB_jDirectionIncrementInDegrees d ] = Some zs ∧
     Forall (fun z => -2147483648 <= z <= 2147483647) zs ∧
     pack_ints bo (zs ++ [1000000]) = Some h) ∧
  length h = 28%nat ∧
  ∀ (t : Z) (cells : grid),
    get_header bo (demo_field t cells) =
      pack_ints bo [47500000; 55500000; 5000000; 17000000; 20000; 20000; 1000000].
Proof.
  intros Hh. split; [|split].
  - unfold get_header in Hh.
    destruct (normalize_tuple (header_args d)) as [zs'|] eqn:Hn; [|done].
    cbn [mbind option_bind] in Hh.
    unfold normalize_tuple, header_args in Hn. cbn [mapM scale] in Hn.
    repeat match type of Hn with
           | context [int_of_float ?x] =>
               let z := fresh "z" in
               destruct (int_of_float x) as [z|] eqn:?; [|done]
           end.
    cbn in Hn. injection Hn as <-.
    exists [z; z0; z1; z2; z3; z4]. split.
    { cbn [mapM].
      repeat match goal with
             | H : int_of_float _ = _ |- _ => rewrite H; clear H
             end.
      done. }
    split; [|exact Hh].
    apply pack_ints_length in Hh as [_ Hf].
    by repeat (apply Forall_cons in Hf as [? Hf]; apply Forall_cons_2; [done|]).
  - unfold get_header in Hh.
    destruct (normalize_tuple (header_args d)) as [zs|] eqn:Hn; [|done].
    cbn in Hh. apply pack_ints_length in Hh as [-> _].
    unfold normalize_tuple in Hn. apply length_mapM in Hn.
    rewrite <- Hn. done.
  - intros t cells. destruct bo; by vm_compute.
Qed.

Lemma get_header_layout_witness :
  get_header LittleEndian (demo_field 0 [[f32 1 0]]) =
    pack_ints LittleEndian [47500000; 55500000; 5000000; 17000000; 20000; 20000; 1000000] ∧
  length (default [] (get_header LittleEndian (demo_field 0 [[f32 1 0]]))) = 28%nat.
Proof.
  destruct (get_header LittleEndian (demo_field 0 [[f32 1 0]])) as [h|] eqn:Hh;
    [|by vm_compute in Hh].
  destruct (get_header_layout LittleEndian (demo_field 0 [[f32 1 0]]) h Hh)
    as (_ & Hlen & Hex).
  split; [|exact Hlen].
  rewrite <- Hh. apply Hex.
Defined.

(** C3, as stated, fails on its own example: the seventh packed integer
    is 1000000, not 1. *)
Lemma header_seventh_integer_is_scaled :
  normalize_tuple (header_args (demo_field 0 [])) =
    Some [47500000; 55500000; 5000000; 17000000; 20000; 20000; 1000000] ∧
  get_header LittleEndian (demo_field 0 []) ≠
    pack_ints LittleEndian [47500000; 55500000; 5000000; 17000000; 20000; 20000; 1] ∧
  get_header BigEndian (demo_field 0 []) ≠
    pack_ints BigEndian [47500000; 55500000; 5000000; 17000000; 20000; 20000; 1].
Proof. by vm_compute. Qed.

(** ** Output file *)

Lemma write_appends (E : env) (p : string) (data : bytes) (w w' : world) :
  write E p data w = (Ok tt, w') →
  files w' !! p = Some (default [] (files w !! p) ++ data).
Proof.
  unfold write. destruct (write_fault E (clock w)); [done|].
  intros [= <-]. cbn [files set_files emit]. by rewrite lookup_insert_eq.
Qed.

Lemma pack_f_length bo x bs : pack_f bo x = Some bs → length bs = 4%nat.
Proof.
  unfold pack_f. destruct x; try (intros [= <-]; apply length_word_bytes).
  destruct (to_f32 _); try done; intros [= <-]; apply length_word_bytes.
Qed.

Lemma pack_floats_length bo xs bs :
  pack_floats bo xs = Some bs → length bs = (4 * length xs)%nat.
Proof.
  unfold pack_floats. revert bs. induction xs as [|x xs IH]; intros bs.
  - by intros [= <-].
  - cbn. destruct (pack_f bo x) as [b1|] eqn:Hx; [|done].
    destruct (mapM (pack_f bo) xs) as [bss|]; [|done].
    intros [= <-]. cbn [List.concat]. rewrite length_app.
    rewrite (pack_f_length _ _ _ Hx), (IH _ eq_refl). simpl. lia.
Qed.

Lemma pack_floats_app bo xs ys :
  pack_floats bo (xs ++ ys) =
    (a ← pack_floats bo xs; c ← pack_floats bo ys; Some (a ++ c)).
Proof.
  unfold pack_floats. induction xs as [|x xs IH].
  - cbn. by destruct (mapM (pack_f bo) ys).
  - cbn. destruct (pack_f bo x) as [b1|]; [|done]. cbn.
    cbn in IH. destruct (mapM (pack_f bo) (xs ++ ys)) as [l|];
      destruct (mapM (pack_f bo) xs) as [l1|]; cbn in *; try done;
      destruct (mapM (pack_f bo) ys) as [l2|]; cbn in *; try done.
    injection IH as ->. by rewrite app_assoc.
Qed.

(** The rows of [asynk.py], packed one by one, are the cells in row-major
    order packed at once. *)
Lemma pack_rows_row_major bo (rows : grid) :
  pack_rows bo rows = pack_floats bo (List.concat rows).
Proof.
  induction rows as [|line rows IH]; [done|].
  cbn [pack_rows List.concat]. by rewrite pack_floats_app, IH.
Qed.

(** The writes of [sync.py], one per row, append the same bytes. *)
Lemma write_rows_appends (E : env) (file : string) (rows : grid) (w w' : world) :
  write_rows E file rows w = (Ok tt, w') →
  ∃ payload, pack_rows (byteorder E) rows = Some payload ∧
    (rows = [] ∧ w' = w ∨
     files w' !! file = Some (default [] (files w !! file) ++ payload)).
Proof.
  revert w. induction rows as [|line rows IH]; intros w.
  - intros [= <-]. exists []. split; [done|]. by left.
  - cbn [write_rows pack_rows]. unfold bind at 1, expect.
    destruct (pack_floats (byteorder E) line) as [packed|]; [|done].
    cbn [ret mbind option_bind]. unfold bind at 1.
    destruct (write E file packed w) as [[[]|e] w1] eqn:Hw; [|done].
    intros Hrest. apply write_appends in Hw.
    destruct (IH _ Hrest) as (payload & Hp & Hfile).
    exists (packed ++ payload). split; [by rewrite Hp|]. right.
    destruct Hfile as [[-> ->] | Hfile].
    + injection Hp as <-. by rewrite Hw, app_nil_r.
    + rewrite Hfile, Hw. cbn [default from_option id]. by rewrite app_assoc.
Qed.

Lemma length_concat_rect {A} (rows : list (list A)) (cols : nat) :
  Forall (fun line => length line = cols) rows →
  length (List.concat rows) = (length rows * cols)%nat.
Proof.
  induction 1 as [|line rows Hl _ IH]; [done|].
  cbn [List.concat length]. rewrite length_app, IH, Hl. lia.
Qed.

Lemma write_data_content (E : env) (path : string) (header : bytes)
    (vals : grid) (w w' : world) :
  write_data E path header vals w = (Ok tt, w') →
  ∃ sentinel payload,
    pack_f (byteorder E) EMPY_VALUE = Some sentinel ∧
    pack_rows (byteorder E) vals = Some payload ∧
    files w' !! output_file path = Some (header ++ sentinel ++ payload).
Proof.
  unfold write_data. unfold bind at 1. unfold open_wb.
  set (w0 := emit _ _).
  assert (files w0 !! output_file path = Some []) as H0
    by (unfold w0; cbn [files set_files emit]; by rewrite lookup_insert_eq).
  unfold bind at 1.
  destruct (write E (output_file path) header w0) as [[[]|e] w1] eqn:Hw1; [|done].
  apply write_appends in Hw1. rewrite H0 in Hw1.
  cbn [default from_option id app] in Hw1.
  unfold bind at 1, expect.
  destruct (pack_f (byteorder E) EMPY_VALUE) as [sentinel|]; [|done].
  cbn [ret]. unfold bind at 1.
  destruct (write E (output_file path) sentinel w1) as [[[]|e] w2] eqn:Hw2; [|done].
  apply write_appends in Hw2. rewrite Hw1 in Hw2.
  cbn [default from_option id] in Hw2.
  intros Hrows. apply write_rows_appends in Hrows as (payload & Hp & Hfile).
  exists sentinel, payload. split; [done|]. split; [done|].
  destruct Hfile as [[-> ->] | Hfile].
  - injection Hp as <-. by rewrite Hw2, app_nil_r.
  - rewrite Hfile, Hw2. cbn [default from_option id]. by rewrite <- app_assoc.
Qed.

Lemma write_data_async_content (E : env) (path : string) (header : bytes)
    (vals : grid) (w w' : world) :
  write_data_async E path header vals w = (Ok tt, w') →
  ∃ sentinel payload,
    pack_f (byteorder E) EMPY_VALUE = Some sentinel ∧
    pack_rows (byteorder E) vals = Some payload ∧
    files w' !! output_file path = Some (header ++ sentinel ++ payload).
Proof.
  unfold write_data_async. unfold bind at 1, expect.
  destruct (pack_f (byteorder E) EMPY_VALUE) as [sentinel|]; [|done].
  cbn [ret]. unfold bind at 1.
  destruct (pack_rows (byteorder E) vals) as [payload|]; [|done].
  cbn [ret]. unfold bind, open_wb. intros Hw. apply write_appends in Hw.
  exists sentinel, payload. split; [done|]. split; [done|].
  rewrite Hw. cbn [files set_files emit]. by rewrite lookup_insert_eq.
Qed.

(** C4.  A completed [write_data], of either script, leaves at
    [PRATE.wgf4] exactly the header, then the four bytes of the sentinel
    as a binary32, then the cells of the grid in row-major order as
    binary32 values, and nothing else; with the 28-byte header of
    [get_header] and a grid of [rows] by [cols] cells the file has
    [32 + 4 * rows * cols] bytes. *)
Theorem wgf4_layout (E : env) (d : field) (header : bytes) (path : string)
    (vals : grid) (rows cols : nat) (w w' : world) :
  get_header (byteorder E) d = Some header →
  length vals = rows →
  Forall (fun line => length line = cols) vals →
  write_data E path header vals w = (Ok tt, w') ∨
  write_data_async E path header vals w = (Ok tt, w') →
  ∃ sentinel payload,
    files w' !! output_file path = Some (header ++ sentinel ++ payload) ∧
    length header = 28%nat ∧
    sentinel = word_bytes (byteorder E) (bits32 (f32 (-100500) 0)) ∧
    length sentinel = 4%nat ∧
    pack_floats (byteorder E) (List.concat vals) = Some payload ∧
    length payload = (4 * rows * cols)%nat ∧
    length (header ++ sentinel ++ payload) = (32 + 4 * rows * cols)%nat.
Proof.
  intros Hh Hrows Hcols Hwrite.
  assert (∃ sentinel payload,
            pack_f (byteorder E) EMPY_VALUE = Some sentinel ∧
            pack_rows (byteorder E) vals = Some payload ∧
            files w' !! output_file path = Some (header ++ sentinel ++ payload))
    as (sentinel & payload & Hs & Hp & Hfile).
  { destruct Hwrite as [Hw | Hw];
      [by apply write_data_content in Hw | by apply write_data_async_content in Hw]. }
  exists sentinel, payload.
  apply get_header_layout in Hh as (_ & Hlen & _).
  rewrite pack_rows_row_major in Hp.
  pose proof (pack_floats_length _ _ _ Hp) as Hpl.
  rewrite (length_concat_rect _ cols Hcols), Hrows in Hpl.
  pose proof (pack_f_length _ _ _ Hs) as Hsl.
  assert (sentinel = word_bytes (byteorder E) (bits32 (f32 (-100500) 0))) as Hsv.
  { destruct (byteorder E); vm_compute in Hs; by injection Hs as <-. }
  repeat split; try done; [lia|].
  rewrite !length_app. lia.
Qed.

Lemma wgf4_layout_witness :
  let hdr := default [] (get_header LittleEndian (demo_field 0 [])) in
  let cells := [[f32 1 0; f32 2 0; f32 3 0]; [f32 4 0; f32 5 0; f32 6 0]] in
  let w' := snd (write_data demo_env "./icon_d2/t1" hdr cells empty_world) in
  get_header (byteorder demo_env) (demo_field 0 []) = Some hdr ∧
  write_data demo_env "./icon_d2/t1" hdr cells empty_world = (Ok tt, w') ∧
  length <$> files w' !! "./icon_d2/t1/PRATE.wgf4" = Some 56%nat.
Proof.
  intros hdr cells w'. split; [done|]. split; [done|].
  destruct (wgf4_layout demo_env (demo_field 0 []) hdr "./icon_d2/t1" cells 2 3
              empty_world w' eq_refl eq_refl
              ltac:(by repeat constructor) (or_introl eq_refl))
    as (sentinel & payload & Hfile & _ & _ & _ & _ & _ & Hlen).
  change (output_file "./icon_d2/t1") with "./icon_d2/t1/PRATE.wgf4" in Hfile.
  rewrite Hfile. cbn [fmap option_fmap option_map]. by rewrite Hlen.
Defined.

(** ** Delta engine *)

Lemma grid_sub_cell (g1 g2 g : grid) (i j : nat) :
  grid_sub g1 g2 = Some g →
  cell g i j = (c ← cell g1 i j; q ← cell g2 i j; Some (sub32 c q)).
Proof.
  unfold grid_sub. destruct (same_shape g1 g2); [|done]. intros [= <-].
  unfold cell. rewrite lookup_zip_with.
  destruct (g1 !! i) as [r1|]; [|done]. cbn [mbind option_bind].
  destruct (g2 !! i) as [r2|]; cbn [mbind option_bind].
  - rewrite lookup_zip_with. done.
  - by destruct (r1 !! j).
Qed.

Lemma map_fmap {A B} (f : A → B) (l : list A) : map f l = f <$> l.
Proof. done. Qed.

Lemma fillna_cell (v : float) (g : grid) (i j : nat) :
  cell (fillna v g) i j = fill_cell v <$> cell g i j.
Proof.
  unfold cell, fillna. rewrite map_fmap, list_lookup_fmap.
  destruct (g !! i) as [row|]; [|done].
  cbn [fmap option_fmap option_map mbind option_bind].
  by rewrite map_fmap, list_lookup_fmap.
Qed.

Lemma fillna_no_nan (v : float) (g : grid) : no_nan g → fillna v g = g.
Proof.
  unfold no_nan, fillna. induction 1 as [|row g Hrow _ IH]; [done|].
  cbn [map]. rewrite IH. f_equal.
  induction Hrow as [|x row Hx _ IHrow]; [done|].
  cbn [map]. rewrite IHrow. unfold fill_cell. by rewrite Hx.
Qed.

Lemma grid_sub_shape (g1 g2 g : grid) :
  grid_sub g1 g2 = Some g → length <$> g = length <$> g1.
Proof.
  unfold grid_sub, same_shape. case_bool_decide as Hs; [|done]. intros [= <-].
  revert g2 Hs. induction g1 as [|r1 g1 IH]; intros [|r2 g2] Hs; try done.
  injection Hs as Hr Hs. cbn. rewrite length_zip_with, <- Hr.
  f_equal; [lia|]. by apply IH.
Qed.

Lemma fillna_shape (v : float) (g : grid) :
  length <$> fillna v g = length <$> g.
Proof.
  unfold fillna. induction g as [|row g IH]; [done|].
  cbn [map fmap list_fmap]. rewrite length_map. f_equal. exact IH.
Qed.

(** The sentinel in the precision of the cells. *)
Lemma sentinel_f32 : to_f32 EMPY_VALUE = f32 (-100500) 0.
Proof. by vm_compute. Qed.

(** What a delta cell is: the binary32 difference, or the sentinel when
    the difference is NaN. *)
Lemma delta_cell (g1 g2 g : grid) (i j : nat) (c q : float) :
  grid_sub g1 g2 = Some g →
  cell g1 i j = Some c → cell g2 i j = Some q →
  cell (fillna EMPY_VALUE g) i j =
    Some (if is_nan (sub32 c q) then f32 (-100500) 0 else sub32 c q).
Proof.
  intros Hg Hc Hq. rewrite fillna_cell, (grid_sub_cell _ _ _ _ _ Hg), Hc, Hq.
  cbn [mbind option_bind fmap option_fmap option_map].
  unfold fill_cell. by rewrite sentinel_f32.
Qed.

(** A subtraction involving a missing operand is missing. *)
Lemma sub32_nan_l (q : float) : sub32 S754_nan q = S754_nan.
Proof. done. Qed.

Lemma sub32_nan_r (c : float) : sub32 c S754_nan = S754_nan.
Proof. by destruct c. Qed.

(** The second value that [get_values] returns is the object it was
    given, and with a previous grid that object now holds the
    difference. *)
Lemma get_values_present (w : world) (dataset p : nat) (cur prev : field) (g : grid) :
  heap w !! dataset = Some cur →
  heap w !! p = Some prev →
  grid_sub (values cur) (values prev) = Some g →
  let h1 := <[dataset := set_values cur g]> (heap w) in
  get_values dataset (Some p) w =
    (Ok (length (heap w), dataset),
     set_heap (h1 ++ [set_values cur (fillna EMPY_VALUE g)]) w).
Proof.
  intros Hd Hp Hg h1. unfold get_values, isub, fillna_obj, deref, alloc.
  unfold bind, expect, ret. rewrite Hd, Hp. cbn [ret]. rewrite Hg.
  cbn [heap set_heap]. fold h1.
  assert (h1 !! dataset = Some (set_values cur g)) as ->.
  { apply list_lookup_insert_eq. by eapply lookup_lt_Some. }
  cbn [values set_values]. unfold h1. cbn [heap set_heap].
  rewrite length_insert. by destruct w.
Qed.

Lemma get_values_absent (w : world) (dataset : nat) (cur : field) :
  heap w !! dataset = Some cur →
  get_values dataset None w =
    (Ok (length (heap w), dataset),
     set_heap (heap w ++ [set_values cur (fillna EMPY_VALUE (values cur))]) w).
Proof.
  intros Hd. unfold get_values, fillna_obj, deref, alloc.
  unfold bind, expect, ret. by rewrite Hd.
Qed.

(** C1, as amended.  With a previous grid of the same shape, the delta
    that [get_values] of [sync.py] returns, and the one that [process]
    of [asynk.py] writes, holds in every cell the difference
    [current - previous], or the sentinel -100500.0 where that
    difference is NaN.  Without a previous grid the output is [current]
    with its NaN cells replaced by the sentinel, hence [current] itself
    when no cell is NaN. *)
Theorem get_values_delta (w : world) (dataset : nat) (cur : field) :
  heap w !! dataset = Some cur →
  (∃ w', get_values dataset None w = (Ok (length (heap w), dataset), w') ∧
     values <$> heap w' !! length (heap w) = Some (fillna EMPY_VALUE (values cur)) ∧
     (∀ i j, cell (fillna EMPY_VALUE (values cur)) i j =
               (fun x => if is_nan x then f32 (-100500) 0 else x)
                 <$> cell (values cur) i j) ∧
     (no_nan (values cur) → fillna EMPY_VALUE (values cur) = values cur)) ∧
  (∀ (p : nat) (prev : field),
     heap w !! p = Some prev →
     same_shape (values cur) (values prev) = true →
     ∃ w' out,
       get_values dataset (Some p) w = (Ok (length (heap w), dataset), w') ∧
       values <$> heap w' !! length (heap w) = Some out ∧
       length <$> out = length <$> values cur ∧
       ∀ i j c q,
         cell (values cur) i j = Some c → cell (values prev) i j = Some q →
         cell out i j =
           Some (if is_nan (sub32 c q) then f32 (-100500) 0 else sub32 c q)) ∧
  (∀ (prev : field) (delta : grid),
     grid_sub (values cur) (values prev) = Some delta →
     ∀ i j c q,
       cell (values cur) i j = Some c → cell (values prev) i j = Some q →
       cell (fillna EMPY_VALUE delta) i j =
         Some (if is_nan (sub32 c q) then f32 (-100500) 0 else sub32 c q)).
Proof.
  intros Hd. split; [|split].
  - eexists. split; [by apply get_values_absent|].
    split; [|split].
    + cbn [heap set_heap]. by rewrite lookup_app_r, Nat.sub_diag.
    + intros i j. rewrite fillna_cell. unfold fill_cell.
      by rewrite sentinel_f32.
    + apply fillna_no_nan.
  - intros p prev Hp Hshape.
    assert (grid_sub (values cur) (values prev)
            = Some (zip_with (zip_with sub32) (values cur) (values prev))) as Hg
      by (unfold grid_sub; by rewrite Hshape).
    eexists _, _. split; [by eapply get_values_present|].
    split; [|split].
    + cbn [heap set_heap].
      rewrite lookup_app_r by (by rewrite length_insert).
      by rewrite length_insert, Nat.sub_diag.
    + cbn [values set_values]. rewrite fillna_shape.
      by apply grid_sub_shape in Hg.
    + intros i j c q Hc Hq. cbn [values set_values]. by eapply delta_cell.
  - intros prev delta Hg i j c q Hc Hq. by eapply delta_cell.
Qed.

Lemma get_values_delta_witness :
  let w := {| files := ∅;
              heap := [demo_field 1 [[f32 3 0; S754_nan]]; demo_field 0 [[f32 1 0; f32 1 0]]];
              trace := [] |} in
  let w' := snd (get_values 0 (Some 1%nat) w) in
  get_values 0 (Some 1%nat) w = (Ok (2%nat, 0%nat), w') ∧
  (r ← heap w' !! 2%nat; cell (values r) 0 0) = Some (f32 2 0) ∧
  (r ← heap w' !! 2%nat; cell (values r) 0 1) = Some (f32 (-100500) 0).
Proof.
  intros w w'.
  destruct (get_values_delta w 0 (demo_field 1 [[f32 3 0; S754_nan]]) eq_refl)
    as (_ & Hpresent & _).
  destruct (Hpresent 1%nat (demo_field 0 [[f32 1 0; f32 1 0]]) eq_refl eq_refl)
    as (w1 & out & Hcall & Hout & _ & Hcells).
  assert (w1 = w') as -> by (unfold w'; by rewrite Hcall).
  split; [exact Hcall|].
  change (length (heap w)) with 2%nat in Hout.
  destruct (heap w' !! 2%nat) as [r|]; [|done]. injection Hout as Hout.
  cbn [mbind option_bind]. rewrite Hout. split.
  - exact (Hcells 0%nat 0%nat (f32 3 0) (f32 1 0) eq_refl eq_refl).
  - exact (Hcells 0%nat 1%nat S754_nan (f32 1 0) eq_refl eq_refl).
Defined.

(** C1, as stated, fails without a previous grid: a NaN cell of
    [current] comes out as the sentinel, so the output is not [current]
    as it is. *)
Lemma get_values_fills_first_grid :
  let r := get_values 0 None nan_world in
  fst r = Ok (1%nat, 0%nat) ∧
  values <$> heap nan_world !! 0%nat = Some [[S754_nan; f32 1 0]] ∧
  values <$> heap (snd r) !! 1%nat = Some [[f32 (-100500) 0; f32 1 0]] ∧
  values <$> heap (snd r) !! 1%nat ≠ values <$> heap nan_world !! 0%nat.
Proof. by vm_compute. Qed.

(** The object that [get_values] hands back for the next round is the
    one it was given, and it now holds the difference, not the grid of
    the entry. *)
Lemma get_values_returns_updated_dataset
    (w : world) (dataset p : nat) (cur prev : field) (g : grid) :
  heap w !! dataset = Some cur →
  heap w !! p = Some prev →
  grid_sub (values cur) (values prev) = Some g →
  snd <$> match fst (get_values dataset (Some p) w) with
          | Ok r => Some r
          | Raise _ => None
          end = Some dataset ∧
  values <$> heap (snd (get_values dataset (Some p) w)) !! dataset = Some g.
Proof.
  intros Hd Hp Hg. rewrite (get_values_present w dataset p cur prev g) by done.
  split; [done|]. cbn [snd heap set_heap].
  assert (dataset < length (heap w))%nat as Hlt by (by eapply lookup_lt_Some).
  rewrite lookup_app_l by (by rewrite length_insert).
  by rewrite list_lookup_insert_eq.
Qed.

(** C2 on the code: three entries whose grids hold 1.0, 3.0 and 6.0.
    Both scripts emit 2.0 for the second entry.  For the third,
    [asynk.py] emits 6.0 - 3.0 = 3.0, the difference of the adjacent
    grids, but [sync.py] emits 6.0 - (3.0 - 1.0) = 4.0: what it carried
    forward from the second round is the difference, not the grid. *)
Theorem sync_carries_delta_forward :
  let sync := main demo_env 5 empty_world in
  let async := main_async demo_env empty_world in
  fst sync = Finished ∧ fst async = Ok tt ∧
  drop 32 <$> files (snd sync) !! "./icon_d2/t1/PRATE.wgf4"
    = pack_floats LittleEndian [f32 2 0] ∧
  drop 32 <$> files (snd async) !! "./icon_d2/t1/PRATE.wgf4"
    = pack_floats LittleEndian [f32 2 0] ∧
  drop 32 <$> files (snd async) !! "./icon_d2/t2/PRATE.wgf4"
    = pack_floats LittleEndian [sub32 (f32 6 0) (f32 3 0)] ∧
  drop 32 <$> files (snd sync) !! "./icon_d2/t2/PRATE.wgf4"
    = pack_floats LittleEndian [sub32 (f32 6 0) (sub32 (f32 3 0) (f32 1 0))] ∧
  sub32 (f32 6 0) (f32 3 0) = f32 3 0 ∧
  sub32 (f32 6 0) (sub32 (f32 3 0) (f32 1 0)) = f32 4 0 ∧
  files (snd sync) !! "./icon_d2/t2/PRATE.wgf4"
    ≠ files (snd async) !! "./icon_d2/t2/PRATE.wgf4".
Proof. by vm_compute. Qed.

(** ** Failure in the processing stage *)

Lemma try_body_raise_keeps_queue (E : env) (current : string)
    (st st' : loop_state) (w w' : world) (e : exn) :
  try_body E current st w = (Raise e, st', w') →
  filenames st' = filenames st.
Proof.
  unfold try_body.
  destruct (bind _ _ w) as [[[[[header path] result] prev']|e1] w1].
  - destruct (bind _ _ w1) as [[[]|e2] w2]; [done|]. by intros [= _ <- _].
  - by intros [= _ <- _].
Qed.

Lemma rounds_snoc (E : env) (n : nat) (st : loop_state) (w : world) :
  rounds E (S n) st w =
    match rounds E n st w with
    | (Continue st', w') => iteration E st' w'
    | r => r
    end.
Proof.
  revert st w. induction n as [|n IH]; intros st w.
  - cbn [rounds]. by destruct (iteration E st w) as [[st'| |e] w'].
  - change (rounds E (S (S n)) st w)
      with (match iteration E st w with
            | (Continue st', w') => rounds E (S n) st' w'
            | r => r
            end).
    cbn [rounds]. destruct (iteration E st w) as [[st'| |e] w']; [|done|done].
    apply IH.
Qed.

(** C8.  In [sync.py] an exception of the processing step leaves the
    entry at the head of the queue, and the next round starts at once in
    the world that the failure left, without any pause; as long as the
    step fails the queue never changes, for any number of rounds.  In
    [asynk.py] the exception of [process] leaves [main]: the run ends
    with it, in the world of the failure. *)
Theorem processing_failure_policy (E : env) :
  (∀ (st st' : loop_state) (w w' : world) (current : string) (e : exn),
     head (filenames st) = Some current →
     try_body E current st w = (Raise e, st', w') →
     is_Exception e = true →
     iteration E st w = (Continue st', w') ∧ filenames st' = filenames st) ∧
  (∀ (n : nat) (st : loop_state) (w : world),
     (∀ k st_k w_k, (k < n)%nat → rounds E k st w = (Continue st_k, w_k) →
        ∃ current e st' w',
          head (filenames st_k) = Some current ∧
          try_body E current st_k w_k = (Raise e, st', w') ∧
          is_Exception e = true) →
     ∃ st_n w_n, rounds E n st w = (Continue st_n, w_n) ∧
       filenames st_n = filenames st) ∧
  (∀ (w w0 w1 w2 w3 : world) (names : list string) (before after : list Z)
     (index : Z) (e : exn),
     get_queue_of_sorces E w = (Ok names, w0) →
     download_datasets E names w0 = (Ok tt, w1) →
     range1 (length names) = before ++ index :: after →
     for_each (process E names) before w1 = (Ok tt, w2) →
     process E names index w2 = (Raise e, w3) →
     main_async E w = (Raise e, w3)).
Proof.
  assert (∀ (st st' : loop_state) (w w' : world) (current : string) (e : exn),
     head (filenames st) = Some current →
     try_body E current st w = (Raise e, st', w') →
     is_Exception e = true →
     iteration E st w = (Continue st', w') ∧ filenames st' = filenames st) as Hstep.
  { intros st st' w w' current e Hhead Hbody Hexc. split.
    - unfold iteration. destruct (filenames st) as [|c rest]; [done|].
      injection Hhead as ->. by rewrite Hbody, Hexc.
    - by eapply try_body_raise_keeps_queue. }
  split; [exact Hstep|]. split.
  - induction n as [|n IH]; intros st w Hfail.
    + by exists st, w.
    + destruct (IH st w) as (st_n & w_n & Hn & Hq).
      { intros k st_k w_k Hk. apply Hfail. lia. }
      destruct (Hfail n st_n w_n ltac:(lia) Hn)
        as (current & e & st' & w' & Hhead & Hbody & Hexc).
      destruct (Hstep _ _ _ _ _ _ Hhead Hbody Hexc) as [Hit Hq'].
      exists st', w'. split; [|congruence].
      by rewrite rounds_snoc, Hn.
  - intros w w0 w1 w2 w3 names before after index e Hq Hd Hr Hbefore Hproc.
    unfold main_async. unfold bind at 1. rewrite Hq.
    unfold bind at 1. rewrite Hd. rewrite Hr.
    clear Hr Hq Hd. revert w1 Hbefore.
    induction before as [|i before IH]; intros w1 Hbefore.
    + injection Hbefore as ->. cbn [app for_each]. unfold bind. by rewrite Hproc.
    + cbn [app for_each] in *. unfold bind in Hbefore |- *.
      destruct (process E names i w1) as [[[]|e1] w1']; [|done].
      by apply IH.
Qed.

Lemma processing_failure_policy_witness :
  let st := {| filenames := ["t1_lat-lon.bz2"; "t2_lat-lon.bz2"]; prev_values := 1%nat |} in
  (∃ w, main_init undecodable_env empty_world = (Ok st, w) ∧
        ∃ st3 w3, rounds undecodable_env 3 st w = (Continue st3, w3) ∧
                  filenames st3 = filenames st) ∧
  fst (main_async undecodable_env empty_world) = Raise DecodeError ∧
  files (snd (main_async undecodable_env empty_world)) !! "./icon_d2/t2/PRATE.wgf4" = None.
Proof.
  intros st.
  destruct (processing_failure_policy undecodable_env) as (_ & Hsync & Hasync).
  split.
  - exists (snd (main_init undecodable_env empty_world)).
    split; [by vm_compute|].
    apply Hsync. intros k st_k w_k Hk Hrounds.
    destruct k as [|[|[|k]]]; [| | |lia];
      vm_compute in Hrounds; injection Hrounds as <- <-;
      exists "t1_lat-lon.bz2", DecodeError; eexists _, _;
      (split; [reflexivity|]); (split; [vm_compute; reflexivity | reflexivity]).
  - pose proof (Hasync empty_world
      (snd (get_queue_of_sorces undecodable_env empty_world))
      (snd (download_datasets undecodable_env
              ["t0_lat-lon.bz2"; "t1_lat-lon.bz2"; "t2_lat-lon.bz2"]
              (snd (get_queue_of_sorces undecodable_env empty_world))))
      _ _
      ["t0_lat-lon.bz2"; "t1_lat-lon.bz2"; "t2_lat-lon.bz2"] [] [2] 1 DecodeError
      ltac:(by vm_compute) ltac:(by vm_compute) eq_refl eq_refl
      ltac:(vm_compute; reflexivity)) as Hmain.
    rewrite Hmain. split; [done|]. by vm_compute.
Defined.

(** * Further properties of the scripts *)

(** ** What the catalog returns on any document *)

Section SplitFacts.
Context {A : Type} `{EqDecision A}.
Implicit Types p s : list A.







End SplitFacts.







(** ** The catalog cannot be fetched, or is empty, or has one entry *)

Lemma get_content_exhausted (E : env) (path : string) (w : world) :
  (∀ j, (j < 10)%nat → succeeded (net E (S (clock w) + 2 * j) path) = None) →
  get_content E path w = (Ok None, add_events (fetch_events path 10 false) w).
Proof.
  intros Hfail.
  destruct (get_content_bounded_retry E path w)
    as (k & _ & _ & [(Hk & c & Hc & _) | (_ & Hg)]); [|done].
  rewrite Hfail in Hc by done. done.
Qed.

Lemma filter_get_retries path k :
  length (List.filter is_get (retries path k)) = k.
Proof. induction k as [|k IH]; simpl; [done | by rewrite IH]. Qed.

Lemma gets_fetch_events path k hit w :
  gets (add_events (fetch_events path k hit) w)
    = ((if hit then 1 else 0) + k + gets w)%nat.
Proof.
  unfold gets, fetch_events. cbn [trace add_events].
  rewrite !List.filter_app, !length_app, filter_get_retries.
  destruct hit; simpl; lia.
Qed.

(** X2.  When the ten GETs of the index all fail, [get_queue_of_sorces]
    raises [AttributeError] (it splits [None]); both scripts end with
    that exception, after exactly ten GETs and without touching a
    file. *)
Theorem catalog_fetch_exhausted (E : env) (w : world) (n : nat) :
  (∀ j, (j < 10)%nat → succeeded (net E (S (clock w) + 2 * j) BASE_URL) = None) →
  ∃ w', get_queue_of_sorces E w = (Raise AttributeError, w') ∧
    main E n w = (Aborted AttributeError, w') ∧
    main_async E w = (Raise AttributeError, w') ∧
    files w' = files w ∧
    gets w' = (10 + gets w)%nat.
Proof.
  intros Hfail. apply get_content_exhausted in Hfail.
  assert (get_queue_of_sorces E w =
          (Raise AttributeError, add_events (fetch_events BASE_URL 10 false) w)) as Hq
    by (unfold get_queue_of_sorces, bind; by rewrite Hfail).
  eexists. split; [exact Hq|]. split; [|split; [|split]].
  - unfold main, main_init, bind. by rewrite Hq.
  - unfold main_async, bind. by rewrite Hq.
  - done.
  - by rewrite gets_fetch_events.
Qed.

Lemma catalog_fetch_exhausted_witness :
  fst (main dead_env 3 empty_world) = Aborted AttributeError ∧
  fst (main_async dead_env empty_world) = Raise AttributeError ∧
  gets (snd (main dead_env 3 empty_world)) = 10%nat.
Proof.
  destruct (catalog_fetch_exhausted dead_env empty_world 3 ltac:(done))
    as (w' & _ & Hsync & Hasync & _ & Hgets).
  rewrite Hsync, Hasync. by split; [|split].
Defined.

(** X3.  On an empty catalog [sync.py] ends with the [IndexError] of
    [filenames[0]], while [asynk.py] ends normally: it starts no
    download and processes nothing. *)
Theorem empty_catalog (E : env) (w w0 : world) (n : nat) :
  get_queue_of_sorces E w = (Ok [], w0) →
  main E n w = (Aborted IndexError, w0) ∧
  main_async E w = (Ok tt, w0).
Proof.
  intros Hq. split.
  - unfold main, main_init, bind. by rewrite Hq.
  - unfold main_async, bind. by rewrite Hq.
Qed.

Lemma empty_catalog_witness :
  fst (main empty_index_env 3 empty_world) = Aborted IndexError ∧
  fst (main_async empty_index_env empty_world) = Ok tt.
Proof.
  destruct (empty_catalog empty_index_env empty_world
              (snd (get_queue_of_sorces empty_index_env empty_world)) 3
              ltac:(by vm_compute)) as [-> ->].
  done.
Defined.

(** ** Files that the cache store touches *)

(** A call of [download_dataset], whatever its outcome, changes no file
    but the cache file of its entry, and not even that one when it
    exists. *)
Lemma download_dataset_files (E : env) (name p : string) (w : world) :
  p ≠ get_filename name ∨ is_Some (files w !! get_filename name) →
  files (snd (download_dataset E name w)) !! p = files w !! p.
Proof.
  intros Hp. destruct (files w !! get_filename name) as [old|] eqn:Hold.
  - by rewrite download_dataset_hit by (by rewrite Hold).
  - destruct Hp as [Hp | [? [=]]].
    destruct (download_dataset_miss E name w Hold) as (c & k & hit & _ & ->).
    unfold bind, decompress, expect, ret, raise, open_wb, write.
    destruct c as [c|]; [|done].
    destruct (bunzip E c) as [data|]; [|done].
    destruct (write_fault E _) as [ft|]; cbn [snd files set_files emit add_events];
      by rewrite !lookup_insert_ne.
Qed.


Lemma download_dataset_keeps (E : env) (name p : string) (w : world) :
  is_Some (files w !! p) →
  files (snd (download_dataset E name w)) !! p = files w !! p.
Proof.
  intros Hp. apply download_dataset_files.
  destruct (decide (p = get_filename name)) as [->|Hne]; [by right | by left].
Qed.

(** X6.  The cache is write-once: [download_datasets], whatever its
    outcome, leaves every file that existed before it as it was, and
    touches no path but the cache paths of its entries. *)
Theorem download_datasets_write_once (E : env) (names : list string)
    (p : string) (w : world) :
  is_Some (files w !! p) ∨ p ∉ get_filename <$> names →
  files (snd (download_datasets E names w)) !! p = files w !! p.
Proof.
  unfold download_datasets. revert w.
  induction names as [|name names IH]; intros w Hp; [done|].
  cbn [for_each]. unfold bind.
  destruct (download_dataset E name w) as [[[]|e] w1] eqn:Hd.
  - assert (files w1 !! p = files w !! p) as Hstep.
    { change w1 with (snd (Ok tt, w1)). rewrite <- Hd.
      destruct Hp as [Hp | Hp]; [by apply download_dataset_keeps|].
      apply download_dataset_files. left. intros ->. apply Hp.
      rewrite fmap_cons. by left. }
    rewrite IH; [done|]. destruct Hp as [Hp | Hp].
    + left. by rewrite Hstep.
    + right. intros Hin. apply Hp. rewrite fmap_cons. by right.
  - cbn [snd]. change w1 with (snd (Raise (A:=unit) e, w1)). rewrite <- Hd.
    destruct Hp as [Hp | Hp]; [by apply download_dataset_keeps|].
    apply download_dataset_files. left. intros ->. apply Hp.
    rewrite fmap_cons. by left.
Qed.

Lemma download_datasets_write_once_witness :
  let w := snd (download_datasets demo_env ["t0_lat-lon.bz2"] empty_world) in
  files w !! ".cache/t0_lat-lon" = Some [x00] ∧
  files (snd (download_datasets demo_env ["t0_lat-lon.bz2"; "t1_lat-lon.bz2"] w))
    !! ".cache/t0_lat-lon" = Some [x00].
Proof.
  intros w. split; [by vm_compute|].
  rewrite (download_datasets_write_once demo_env
             ["t0_lat-lon.bz2"; "t1_lat-lon.bz2"] ".cache/t0_lat-lon" w).
  - by vm_compute.
  - left. exists [x00]. by vm_compute.
Defined.



(** ** The loop of [sync.py] when nothing fails *)

Lemma try_body_Ok_pops (E : env) (current : string)
    (st st' : loop_state) (w w' : world) (u : unit) :
  try_body E current st w = (Ok u, st', w') →
  filenames st' = tail (filenames st).
Proof.
  unfold try_body.
  destruct (bind _ _ w) as [[[[[header path] result] prev']|e1] w1]; [|done].
  destruct (bind _ _ w1) as [[[]|e2] w2]; [|done]. by intros [= _ <- _].
Qed.

Lemma rounds_finished_stable (E : env) (n j : nat) (st : loop_state) (w w' : world) :
  rounds E n st w = (Finished, w') → rounds E (n + j) st w = (Finished, w').
Proof.
  intros Hn. induction j as [|j IH].
  - by rewrite Nat.add_0_r.
  - replace (n + S j)%nat with (S (n + j)) by lia. by rewrite rounds_snoc, IH.
Qed.

(** X5.  As long as no step raises, every round of the loop of [sync.py]
    takes one entry off the queue, so the loop ends after as many rounds
    as there are entries, and stays ended. *)
Theorem loop_finishes (E : env) (st : loop_state) (w : world) :
  (∀ k st_k w_k current,
     (k < length (filenames st))%nat →
     rounds E k st w = (Continue st_k, w_k) →
     head (filenames st_k) = Some current →
     ∃ u st' w', try_body E current st_k w_k = (Ok u, st', w')) →
  (∀ k, (k ≤ length (filenames st))%nat →
     ∃ st_k w_k, rounds E k st w = (Continue st_k, w_k) ∧
       filenames st_k = drop k (filenames st)) ∧
  ∃ w', ∀ m, (length (filenames st) < m)%nat → rounds E m st w = (Finished, w').
Proof.
  intros Hok.
  assert (∀ k, (k ≤ length (filenames st))%nat →
     ∃ st_k w_k, rounds E k st w = (Continue st_k, w_k) ∧
       filenames st_k = drop k (filenames st)) as Hsteps.
  { induction k as [|k IH]; intros Hk.
    - exists st, w. by rewrite drop_0.
    - destruct IH as (st_k & w_k & Hr & Hq); [lia|].
      destruct (filenames st_k) as [|current rest] eqn:Hf.
      { symmetry in Hq. apply (f_equal length) in Hq.
        rewrite length_drop in Hq. simpl in Hq. lia. }
      destruct (Hok k st_k w_k current ltac:(lia) Hr) as (u & st' & w' & Hbody);
        [by rewrite Hf|].
      exists st', w'. split.
      + rewrite rounds_snoc, Hr. unfold iteration. by rewrite Hf, Hbody.
      + apply try_body_Ok_pops in Hbody. rewrite Hbody, Hf. cbn [tail].
        replace (S k) with (k + 1)%nat by lia.
        by rewrite <- drop_drop, <- Hq. }
  split; [exact Hsteps|].
  destruct (Hsteps (length (filenames st)) (le_n _)) as (st_n & w_n & Hr & Hq).
  rewrite drop_all in Hq. exists w_n. intros m Hm.
  replace m with (S (length (filenames st)) + (m - S (length (filenames st))))%nat
    by lia.
  apply rounds_finished_stable. rewrite rounds_snoc, Hr.
  unfold iteration. by rewrite Hq.
Qed.

Lemma loop_finishes_witness :
  let st := {| filenames := ["t1_lat-lon.bz2"; "t2_lat-lon.bz2"]; prev_values := 1%nat |} in
  let w := snd (main_init demo_env empty_world) in
  main_init demo_env empty_world = (Ok st, w) ∧
  fst (rounds demo_env 3 st w) = Finished ∧
  fst (rounds demo_env 7 st w) = Finished.
Proof.
  intros st w. split; [by vm_compute|].
  destruct (loop_finishes demo_env st w) as (_ & w' & Hfin).
  - intros k st_k w_k current Hk Hr Hhead.
    destruct k as [|[|k]]; [| |simpl in Hk; lia];
      vm_compute in Hr; injection Hr as <- <-; vm_compute in Hhead;
      injection Hhead as <-; eexists _, _, _; vm_compute; reflexivity.
  - rewrite (Hfin 3%nat), (Hfin 7%nat) by (simpl; lia). done.
Defined.

(** ** A catalog of one entry *)

Lemma get_values_world (dataset : nat) (prev : option nat) (w : world) :
  files (snd (get_values dataset prev w)) = files w ∧
  trace (snd (get_values dataset prev w)) = trace w.
Proof.
  unfold get_values, isub, fillna_obj, deref, alloc, bind, expect, ret, raise.
  destruct prev as [p|].
  - destruct (heap w !! dataset) as [d|]; [|done].
    destruct (heap w !! p) as [q|]; [|done].
    destruct (grid_sub (values d) (values q)) as [g|]; [|done].
    cbn [heap set_heap]. by destruct (_ !! dataset).
  - by destruct (heap w !! dataset).
Qed.

Lemma get_dataset_files (E : env) (name p : string) (w : world) :
  p ≠ get_filename name ∨ is_Some (files w !! get_filename name) →
  files (snd (get_dataset E name w)) !! p = files w !! p.
Proof.
  intros Hp. pose proof (download_dataset_files E name p w Hp) as Hd.
  unfold get_dataset, bind, alloc.
  destruct (download_dataset E name w) as [[[]|e] w1]; [|done].
  pose proof (load_field_trace E (get_filename name) w1) as Hl.
  destruct (load_field E (get_filename name) w1) as [[d|e] w2];
    cbn [snd] in *; by subst w2.
Qed.

(** X4.  With a single entry in the catalog no output is produced:
    [asynk.py] only caches the entry, and [sync.py], once the baseline is
    loaded, ends at the first test of the queue; neither changes a file
    other than the cache file of the entry. *)
Theorem single_entry_catalog (E : env) (w w0 : world) (name : string) :
  get_queue_of_sorces E w = (Ok [name], w0) →
  main_async E w = download_dataset E name w0 ∧
  (∀ n, ∃ w', main E (S n) w = (Finished, w') ∨ ∃ e, main E (S n) w = (Aborted e, w')) ∧
  ∀ p n, p ≠ get_filename name →
    files (snd (main_async E w)) !! p = files w0 !! p ∧
    files (snd (main E n w)) !! p = files w0 !! p.
Proof.
  intros Hq.
  assert (main_async E w = download_dataset E name w0) as Hasync.
  { unfold main_async, bind at 1. rewrite Hq. unfold download_datasets.
    cbn [for_each length range1]. unfold bind, ret.
    by destruct (download_dataset E name w0) as [[[]|e] w1]. }
  assert (main_init E w =
          (let* d0 := get_dataset E name in
           let* '(prev, _) := get_values d0 None in
           ret {| filenames := []; prev_values := prev |}) w0) as Hmi.
  { unfold main_init. unfold bind at 1. rewrite Hq. done. }
  assert (∀ p, p ≠ get_filename name →
            files (snd (main_init E w)) !! p = files w0 !! p ∧
            ∀ st w1, main_init E w = (Ok st, w1) → filenames st = []) as Hinit.
  { intros p Hp. rewrite Hmi.
    pose proof (get_dataset_files E name p w0 (or_introl Hp)) as Hfiles.
    unfold bind at 1 3.
    destruct (get_dataset E name w0) as [[d0|e] w1]; [|by split].
    cbn [snd] in Hfiles. unfold bind.
    destruct (get_values_world d0 None w1) as [Hv _].
    destruct (get_values d0 None w1) as [[[prev other]|e] w2];
      unfold ret; cbn [snd] in *.
    - split; [by rewrite Hv|]. by intros st w3 [= <- _].
    - split; [by rewrite Hv | done]. }
  split; [exact Hasync|]. split.
  - intros n. unfold main.
    destruct (main_init E w) as [[st|e] w1] eqn:Hi.
    + exists w1. left. cbn [rounds]. unfold iteration.
      destruct (Hinit "" ltac:(done)) as [_ Hst].
      by rewrite (Hst st w1 eq_refl).
    + exists w1. right. by exists e.
  - intros p n Hp. split.
    + rewrite Hasync. by apply download_dataset_files; left.
    + destruct (Hinit p Hp) as [Hfiles Hst]. unfold main.
      destruct (main_init E w) as [[st|e] w1] eqn:Hi; [|done].
      cbn [snd] in Hfiles. destruct n as [|n]; [done|].
      cbn [rounds]. unfold iteration. by rewrite (Hst st w1 eq_refl).
Qed.

Lemma single_entry_catalog_witness :
  fst (main single_entry_env 4 empty_world) = Finished ∧
  files (snd (main single_entry_env 4 empty_world)) !! "./icon_d2/t0/PRATE.wgf4" = None ∧
  files (snd (main_async single_entry_env empty_world)) !! "./icon_d2/t0/PRATE.wgf4" = None.
Proof.
  destruct (single_entry_catalog single_entry_env empty_world
              (snd (get_queue_of_sorces single_entry_env empty_world))
              "t0_lat-lon.bz2" ltac:(by vm_compute)) as (_ & _ & Hfiles).
  destruct (Hfiles "./icon_d2/t0/PRATE.wgf4" 4%nat ltac:(done)) as [Ha Hs].
  split; [by vm_compute|]. split; [by rewrite Hs | by rewrite Ha].
Defined.

(** ** The processing stage of [asynk.py] *)




(** X9.  The indices that [main] of [asynk.py] hands to [process] are
    1 .. len-1: both look-ups succeed, and the previous entry is the
    catalog predecessor.  At index 0, which [main] never uses, Python's
    negative index would pair the first entry with the last. *)
Theorem process_pairs_adjacent (names : list string) :
  (∀ index, index ∈ range1 (length names) →
     ∃ k current previous,
       index = Z.of_nat (S k) ∧
       names !! k = Some previous ∧ names !! S k = Some current ∧
       py_index names index = Some current ∧
       py_index names (index - 1) = Some previous) ∧
  py_index names (0 - 1) = last names.
Proof.
  split.
  - intros index Hin. unfold range1 in Hin.
    apply list_elem_of_fmap in Hin as (i & -> & Hi).
    apply elem_of_seq in Hi. destruct i as [|k]; [lia|].
    destruct (lookup_lt_is_Some_2 names (S k) ltac:(lia)) as [current Hc].
    destruct (lookup_lt_is_Some_2 names k ltac:(lia)) as [previous Hp].
    exists k, current, previous. repeat split; try done.
    + unfold py_index. destruct (Z.ltb_spec (Z.of_nat (S k)) 0); [lia|].
      by rewrite Nat2Z.id.
    + unfold py_index. destruct (Z.ltb_spec (Z.of_nat (S k) - 1) 0); [lia|].
      replace (Z.to_nat (Z.of_nat (S k) - 1)) with k by lia. done.
  - unfold py_index. change (0 - 1) with (-1). change (-1 <? 0) with true.
    cbv iota. destruct names as [|x names]; [done|].
    destruct (Z.ltb_spec (Z.of_nat (length (x :: names)) + -1) 0) as [Hlt|Hge].
    { simpl in Hlt. lia. }
    replace (Z.to_nat (Z.of_nat (length (x :: names)) + -1)) with (length names)
      by (simpl; lia).
    by rewrite last_lookup.
Qed.

(** ** The delta engine and the objects *)




(** X11.  [get_values] with a previous grid changes one object, the one
    it was given as [dataset], and creates one; every other object, the
    previous grid included when it is another object, is as before, and
    so are the files and the effects. *)
Theorem get_values_frame (w : world) (dataset p : nat) (cur prev : field) :
  heap w !! dataset = Some cur →
  heap w !! p = Some prev →
  same_shape (values cur) (values prev) = true →
  let w' := snd (get_values dataset (Some p) w) in
  length (heap w') = S (length (heap w)) ∧
  (∀ r, r ≠ dataset → (r < length (heap w))%nat → heap w' !! r = heap w !! r) ∧
  (p ≠ dataset → heap w' !! p = Some prev) ∧
  files w' = files w ∧ trace w' = trace w.
Proof.
  intros Hd Hp Hshape w'.
  assert (grid_sub (values cur) (values prev)
          = Some (zip_with (zip_with sub32) (values cur) (values prev))) as Hg
    by (unfold grid_sub; by rewrite Hshape).
  unfold w'. rewrite (get_values_present w dataset p cur prev _ Hd Hp Hg).
  cbn [snd heap files trace set_heap].
  assert (∀ r, r ≠ dataset → (r < length (heap w))%nat →
            (<[dataset:=set_values cur (zip_with (zip_with sub32) (values cur) (values prev))]>
               (heap w) ++
             [set_values cur
                (fillna EMPY_VALUE (zip_with (zip_with sub32) (values cur) (values prev)))])
            !! r = heap w !! r) as Hframe.
  { intros r Hr Hlt. rewrite lookup_app_l by (by rewrite length_insert).
    by apply list_lookup_insert_ne. }
  split; [|split; [|split]].
  - rewrite length_app, length_insert. simpl. lia.
  - exact Hframe.
  - intros Hne. rewrite Hframe; [done | done | by eapply lookup_lt_Some].
  - done.
Qed.

Lemma get_values_frame_witness :
  let w := {| files := ∅;
              heap := [demo_field 1 [[f32 3 0]]; demo_field 0 [[f32 1 0]]];
              trace := [] |} in
  heap (snd (get_values 0 (Some 1%nat) w)) !! 1%nat = Some (demo_field 0 [[f32 1 0]]) ∧
  length (heap (snd (get_values 0 (Some 1%nat) w))) = 3%nat.
Proof.
  intros w.
  destruct (get_values_frame w 0 1 (demo_field 1 [[f32 3 0]]) (demo_field 0 [[f32 1 0]])
              eq_refl eq_refl eq_refl) as (Hlen & _ & Hprev & _).
  split; [by apply Hprev | exact Hlen].
Defined.
